(** * conjur-api-go: the authentication / token lifecycle of the client

A shallow embedding of [conjurapi/authn.go] (the [Client] methods that
refresh, cache and stamp access tokens, [Login], [OidcAuthenticate],
[PurgeCredentials], [InternalAuthenticate]) and of [Config.validate],
followed by the properties the specification states about them.

Conventions.
- A Go [string] is a [string] (a sequence of 8-bit characters); a Go
  [[]byte] is a [list byte], the nil slice and the empty slice both being
  [[]] (no code below tells them apart).
- A Go [error] is its message; the nil error is [None].
- A Go function returning [(v, err)] returns the pair; both components
  are kept, because some callers hand the pair on unchanged.
- A method call on a nil interface value panics. *)

From Stdlib Require Import ZArith NArith Ascii String List Lia Bool.
From stdpp Require Import base strings gmap.

Local Open Scope string_scope.

(** ** Go basics *)

Definition bytes : Type := list Byte.byte.
Definition error : Type := string.

(** [errors.New(s)], and [fmt.Errorf] with the lone verb [%s] applied to
    [s]: an error whose message is the given text. *)
Definition errors_New (msg : string) : error := msg.

(** The double quote character (ASCII 34), escaped in the Go format string. *)
Definition dquote : string := String (ascii_of_nat 34) EmptyString.

(** [string(b)] for [b : []byte]. *)
Definition string_of_bytes (b : bytes) : string := string_of_list_byte b.

(** The line feed, written [\n] in the Go sources. *)
Definition newline : string := String (ascii_of_nat 10) EmptyString.

(** [strings.Join(elems, sep)]. *)
Fixpoint strings_Join (elems : list string) (sep : string) : string :=
  match elems with
  | [] => ""
  | [e] => e
  | e :: rest => e +:+ sep +:+ strings_Join rest sep
  end.

(** ** encoding/base64, [StdEncoding.EncodeToString] *)

Module base64.

Definition encodeStd : string :=
  "ABCDEFGHIJKLMNOPQRSTUVWXYZabcdefghijklmnopqrstuvwxyz0123456789+/".

Definition StdPadding : ascii := "="%char.

(** [enc.encode[i]] for [i] below 64. *)
Definition encode (i : N) : ascii :=
  match String.get (N.to_nat i) encodeStd with
  | Some ch => ch
  | None => StdPadding
  end.

Definition sextet (val : N) (shift : N) : ascii :=
  encode (N.land (N.shiftr val shift) 63).

Definition b (x : Byte.byte) : N := Byte.to_N x.

(** The loop over whole 3-byte groups, then the 1- or 2-byte remainder
    with its padding. *)
Fixpoint EncodeToString (src : bytes) : string :=
  match src with
  | [] => ""
  | [s0] =>
      let val := N.shiftl (b s0) 16 in
      String (sextet val 18) (String (sextet val 12)
        (String StdPadding (String StdPadding "")))
  | [s0; s1] =>
      let val := N.lor (N.shiftl (b s0) 16) (N.shiftl (b s1) 8) in
      String (sextet val 18) (String (sextet val 12)
        (String (sextet val 6) (String StdPadding "")))
  | s0 :: s1 :: s2 :: rest =>
      let val := N.lor (N.lor (N.shiftl (b s0) 16) (N.shiftl (b s1) 8)) (b s2) in
      String (sextet val 18) (String (sextet val 12)
        (String (sextet val 6) (String (sextet val 0) (EncodeToString rest))))
  end.

End base64.

(** ** [Config] and [Config.validate] *)

Module Config.

Record t : Type := mk {
  Account : string;        (* tag validate: required *)
  APIKey : string;
  ApplianceURL : string;   (* tag validate: required *)
  Login : string;
  AuthnTokenFile : string
}.

Definition tagName : string := "validate".

(** What [reflect] shows of the struct type: for each field, in
    declaration order, its name and its struct tag as key/value pairs. *)
Record StructField : Type := { Name : string; Tag : list (string * string) }.

Definition Type_Field : list StructField :=
  [ {| Name := "Account";        Tag := [("validate", "required")] |};
    {| Name := "APIKey";         Tag := [] |};
    {| Name := "ApplianceURL";   Tag := [("validate", "required")] |};
    {| Name := "Login";          Tag := [] |};
    {| Name := "AuthnTokenFile"; Tag := [] |} ].

Definition NumField : nat := List.length Type_Field.

(** [v.Field(i).Interface()], every field being a string. *)
Definition Field (c : t) (i : nat) : string :=
  match i with
  | 0 => Account c
  | 1 => APIKey c
  | 2 => ApplianceURL c
  | 3 => Login c
  | _ => AuthnTokenFile c
  end.

(** [f.Tag.Get(key)]: the value under [key], the empty string if absent. *)
Fixpoint Tag_Get (tag : list (string * string)) (key : string) : string :=
  match tag with
  | [] => ""
  | (k, v) :: rest => if String.eqb k key then v else Tag_Get rest key
  end.

(** One iteration of the loop body, for field number [i] described by [f]. *)
Definition visit (c : t) (errors : list string) (i : nat) (f : StructField)
  : list string :=
  if String.eqb (Tag_Get (Tag f) tagName) "required" then
    if String.eqb (Field c i) "" then errors ++ [Name f +:+ " is required."]
    else errors
  else errors.

(** [for i := 0; i < v.NumField(); i++]. *)
Fixpoint loop (c : t) (errors : list string) (i : nat) (fs : list StructField)
  : list string :=
  match fs with
  | [] => errors
  | f :: rest => loop c (visit c errors i f) (S i) rest
  end.

Definition validate (c : t) : option error :=
  let errors := loop c [] 0 Type_Field in
  if Nat.eqb (List.length errors) 0 then None
  else Some (errors_New (strings_Join errors newline)).

End Config.

(** ** net/http: requests and their headers *)

Module http.

(** [http.Header] is a [map[string][]string]. *)
Record Request : Type := mkRequest {
  Method : string;
  URL : string;
  Header : gmap string (list string);
  Body : bytes
}.

(** [req.Header.Set(key, value)]: the values under [key] are replaced by
    the single [value].  (Go first puts the key in canonical MIME form;
    the one key used below, Authorization, is already canonical.) *)
Definition Header_Set (req : Request) (key value : string) : Request :=
  {| Method := Method req;
     URL := URL req;
     Header := <[ key := [value] ]> (Header req);
     Body := Body req |}.

End http.

(** ** Package authn: tokens and authenticators

The client imports this package; of its sources only the test of the
API-key authenticator is covered here.  The client is therefore stated
over the package's interface, and a model of the package written from the
specification follows. *)

Module authn.

(** The operations of [*authn.AuthnToken] the client calls.  [World] is
    everything outside the client: the wall clock [ShouldRefresh] reads,
    the remote service, the backing store. *)
Class API (World : Type) : Type := {
  AuthnToken : Type;
  (** [authn.NewToken(data)]; every caller tests the error first and uses
      the token only when it is nil. *)
  NewToken : bytes -> AuthnToken + error;
  (** [token.FromJSON(data)]: the token after the call, and the error,
      which both call sites drop. *)
  FromJSON : AuthnToken -> bytes -> AuthnToken * option error;
  Raw : AuthnToken -> bytes;
  ShouldRefresh : AuthnToken -> World -> bool
}.

Record LoginPair : Type := { Login : string; APIKey : string }.

(** The [Authenticator] interface held in [c.authenticator]. *)
Record Authenticator (World : Type) : Type := {
  RefreshToken : World -> (bytes * option error) * World;
  NeedsTokenRefresh : World -> bool
}.
Arguments RefreshToken {World}.
Arguments NeedsTokenRefresh {World}.

(** Modelled from the spec: the API-key authenticator
    ([APIKeyAuthenticator], whose declaration is missing; its test builds it
    from the two fields [Authenticate] and [LoginPair]).  Section 4.2:
    [RefreshToken] invokes the injected authenticate delegate with its
    LoginPair and hands its result on unchanged; [NeedsTokenRefresh] always
    reports false. *)
Definition APIKeyAuthenticator {World : Type}
    (Authenticate : LoginPair -> World -> (bytes * option error) * World)
    (loginPair : LoginPair) : Authenticator World :=
  {| RefreshToken := Authenticate loginPair;
     NeedsTokenRefresh := fun _ => false |}.

(** Modelled from the spec: the token entity of package authn
    ([AuthnToken], [NewToken], [FromJSON], [Raw], [ShouldRefresh]), whose
    sources are missing.  The payload format is not given, so the decoder
    [issuedAtOf] is a parameter, as are the known token lifetime [L] and
    the refresh margin [M]. *)
Module Model.
Section Token.
Variable issuedAtOf : bytes -> option Z.
Variables L M : Z.

(** Modelled from the spec: the missing [AuthnToken].  Section 3: a token
    wraps an opaque byte payload and the issuance timestamp derived from
    it. *)
Record Token : Type := mkToken { raw : bytes; issuedAt : Z }.

Definition MalformedTokenError : error := "malformed token".

(** Modelled from the spec: the missing [NewToken].  Section 4.1: fails
    with MalformedTokenError if the bytes are not a well-formed record or
    lack an issuance timestamp; otherwise the token keeps the exact bytes. *)
Definition NewToken (data : bytes) : Token + error :=
  match issuedAtOf data with
  | Some T => inl {| raw := data; issuedAt := T |}
  | None => inr MalformedTokenError
  end.

(** Modelled from the spec: the missing [FromJSON].  Section 9: the token
    re-parses raw bytes to get the issuance time.  On success the token
    holds the given payload and its timestamp; on failure it is left as it
    was. *)
Definition FromJSON (t : Token) (data : bytes) : Token * option error :=
  match NewToken data with
  | inl t' => (t', None)
  | inr e => (t, Some e)
  end.

(** Modelled from the spec: the missing [Raw].  Section 4.1: the exact
    bytes used to construct the token. *)
Definition Raw (t : Token) : bytes := raw t.

(** Modelled from the spec: the missing [ShouldRefresh].  Sections 4.1 and
    8: a function of the issuance time [T] and the time of the query, false
    for all queries at a time below [T + (L - M)] and true for all queries
    at or after it. *)
Definition ShouldRefresh (t : Token) (now : Z) : bool :=
  (issuedAt t + (L - M) <=? now)%Z.

End Token.
End Model.

End authn.

(** ** The credential storage interface held in [c.storage] *)

Module storage.

Record Provider (World : Type) : Type := {
  ReadAuthnToken : World -> (bytes * option error) * World;
  StoreAuthnToken : bytes -> World -> option error * World;
  StoreCredentials : string -> string -> World -> option error * World;
  PurgeCredentials : World -> option error * World
}.
Arguments ReadAuthnToken {World}.
Arguments StoreAuthnToken {World}.
Arguments StoreCredentials {World}.
Arguments PurgeCredentials {World}.

End storage.

(** ** Package response and the HTTP client, as far as the client uses them *)

Module response.

Class API (World : Type) : Type := {
  Response : Type;
  (** [response.DataResponse(res)]: reads the body of the response. *)
  DataResponse : Response -> World -> (bytes * option error) * World
}.

End response.

(** ** The client *)

Module Client.
Section Client.

Context {World : Type} `{!authn.API World} `{!response.API World}.

(** The fields of [Client] the methods of authn.go touch.  [AuthnType] is
    what [c.GetConfig().AuthnType] reads.  The request builders
    [c.LoginRequest] and [c.OidcAuthenticateRequest] and the HTTP client's
    [Do] belong to other files and are carried as fields.
    [authToken], [authenticator] and [storage] may be nil. *)
Record t : Type := mk {
  AuthnType : string;
  authToken : option authn.AuthnToken;
  authenticator : option (authn.Authenticator World);
  storage : option (storage.Provider World);
  LoginRequest : string -> string -> http.Request + error;
  OidcAuthenticateRequest : string -> string -> string -> http.Request + error;
  httpClient_Do : http.Request -> World -> (response.Response + error) * World
}.

(** Calls that leave the client, in the order they are made. *)
Inductive Call : Type :=
| call_Authenticator_RefreshToken
| call_ReadAuthnToken
| call_StoreAuthnToken (token : bytes)
| call_StoreCredentials (login apiKey : string)
| call_PurgeCredentials
| call_httpClient_Do (req : http.Request)
| call_DataResponse.

(** The receiver [c], the world, and the calls made so far. *)
Record State : Type := mkState {
  self : t;
  world : World;
  calls : list Call
}.

Inductive Outcome (A : Type) : Type :=
| Ret (a : A) (s : State)
| Panic.
Arguments Ret {A}.
Arguments Panic {A}.

Definition M (A : Type) : Type := State -> Outcome A.

Definition ret {A : Type} (a : A) : M A := fun s => Ret a s.

Definition bind {A B : Type} (m : M A) (k : A -> M B) : M B :=
  fun s => match m s with
           | Ret a s' => k a s'
           | Panic => Panic
           end.

Definition panic {A : Type} : M A := fun _ => Panic.

(** What a run returned, if it did not panic. *)
Definition returned {A : Type} (o : Outcome A) : option A :=
  match o with
  | Ret a _ => Some a
  | Panic => None
  end.

Definition get : M t := fun s => Ret (self s) s.

(** The state once [c.authToken = token] has run. *)
Definition installed (token : authn.AuthnToken) (s : State) : State :=
  let c := self s in
  {| self := {| AuthnType := AuthnType c;
                authToken := Some token;
                authenticator := authenticator c;
                storage := storage c;
                LoginRequest := LoginRequest c;
                OidcAuthenticateRequest := OidcAuthenticateRequest c;
                httpClient_Do := httpClient_Do c |};
     world := world s;
     calls := calls s |}.

Definition set_authToken (token : authn.AuthnToken) : M unit :=
  fun s => Ret tt (installed token s).

(** The state once the call [what] has been made and left the world [w]. *)
Definition logged (what : Call) (w : World) (s : State) : State :=
  {| self := self s; world := w; calls := calls s ++ [what] |}.

(** A call into the world: it is logged, and the world moves on. *)
Definition invoke {A : Type} (what : Call) (f : World -> A * World) : M A :=
  fun s =>
    let '(a, w) := f (world s) in
    Ret a (logged what w s).

(** A query of the world that changes nothing. *)
Definition observe {A : Type} (f : World -> A) : M A :=
  fun s => Ret (f (world s)) s.

Notation "x <- m ;; k" := (bind m (fun x => k))
  (at level 100, m at next level, right associativity).
Notation "m ;;; k" := (bind m (fun _ => k))
  (at level 100, right associativity).

(** [c.authenticator.RefreshToken()]. *)
Definition authenticator_RefreshToken : M (bytes * option error) :=
  c <- get ;;
  match authenticator c with
  | None => panic
  | Some a => invoke call_Authenticator_RefreshToken (authn.RefreshToken a)
  end.

(** [c.authenticator.NeedsTokenRefresh()]. *)
Definition authenticator_NeedsTokenRefresh : M bool :=
  c <- get ;;
  match authenticator c with
  | None => panic
  | Some a => observe (authn.NeedsTokenRefresh a)
  end.

Definition refreshToken : M (option error) :=
  r <- authenticator_RefreshToken ;;
  let '(tokenBytes, err) := r in
  match err with
  | Some e => ret (Some e)
  | None =>
      match authn.NewToken tokenBytes with
      | inr e => ret (Some e)
      | inl token =>
          let token := fst (authn.FromJSON token tokenBytes) in
          set_authToken token ;;;
          ret None
      end
  end.

(** The three operands of [||], evaluated left to right until one is true. *)
Definition NeedsTokenRefresh : M bool :=
  c <- get ;;
  match authToken c with
  | None => ret true
  | Some token =>
      stale <- observe (authn.ShouldRefresh token) ;;
      if stale then ret true else authenticator_NeedsTokenRefresh
  end.

Definition readCachedAccessToken : M (option authn.AuthnToken) :=
  c <- get ;;
  match storage c with
  | None => panic
  | Some st =>
      r <- invoke call_ReadAuthnToken (storage.ReadAuthnToken st) ;;
      let '(tokenBytes, err) := r in
      match err with
      | Some _ => ret None
      | None =>
          match authn.NewToken tokenBytes with
          | inr _ => ret None
          | inl token =>
              let token := fst (authn.FromJSON token (authn.Raw token)) in
              ret (Some token)
          end
      end
  end.

Definition RefreshToken : M (option error) :=
  c <- get ;;
  (if String.eqb (AuthnType c) "oidc" then
     token <- readCachedAccessToken ;;
     match token with
     | Some token => set_authToken token
     | None => ret tt
     end
   else ret tt) ;;;
  stale <- NeedsTokenRefresh ;;
  if stale then refreshToken else ret None.

Definition ForceRefreshToken : M (option error) := refreshToken.

(** The value [fmt.Sprintf] builds for the Authorization header. *)
Definition authorization (raw : bytes) : string :=
  "Token token=" +:+ dquote +:+ base64.EncodeToString raw +:+ dquote.

(** [req] is a pointer: the request as it stands after the call is returned
    along with the error. *)
Definition createAuthRequest (req : http.Request) : M (option error * http.Request) :=
  err <- RefreshToken ;;
  match err with
  | Some e => ret (Some e, req)
  | None =>
      c <- get ;;
      match authToken c with
      | None => panic
      | Some token =>
          ret (None, http.Header_Set req "Authorization" (authorization (authn.Raw token)))
      end
  end.

Definition Login (login password : string) : M (bytes * option error) :=
  c <- get ;;
  match LoginRequest c login password with
  | inr e => ret ([], Some e)
  | inl req =>
      res <- invoke (call_httpClient_Do req) (httpClient_Do c req) ;;
      match res with
      | inr e => ret ([], Some e)
      | inl res =>
          r <- invoke call_DataResponse (response.DataResponse res) ;;
          let '(apiKey, err) := r in
          match err with
          | Some e => ret ([], Some e)
          | None =>
              match storage c with
              | Some st =>
                  err <- invoke (call_StoreCredentials login (string_of_bytes apiKey))
                           (storage.StoreCredentials st login (string_of_bytes apiKey)) ;;
                  ret (apiKey, err)
              | None => ret (apiKey, None)
              end
          end
      end
  end.

Definition PurgeCredentials : M (option error) :=
  c <- get ;;
  match storage c with
  | None => ret None
  | Some st => invoke call_PurgeCredentials (storage.PurgeCredentials st)
  end.

Definition InternalAuthenticate : M (bytes * option error) :=
  c <- get ;;
  match authenticator c with
  | None =>
      ret ([], Some (errors_New "unable to authenticate using client without authenticator"))
  | Some _ =>
      if String.eqb (AuthnType c) "oidc" then
        token <- readCachedAccessToken ;;
        match token with
        | Some token =>
            stale <- observe (authn.ShouldRefresh token) ;;
            if negb stale then ret (authn.Raw token, None)
            else ret ([], Some (errors_New "No valid OIDC token found. Please login again."))
        | None =>
            ret ([], Some (errors_New "No valid OIDC token found. Please login again."))
        end
      else authenticator_RefreshToken
  end.

Definition OidcAuthenticate (code nonce code_verifier : string) : M (bytes * option error) :=
  c <- get ;;
  match OidcAuthenticateRequest c code nonce code_verifier with
  | inr e => ret ([], Some e)
  | inl req =>
      res <- invoke (call_httpClient_Do req) (httpClient_Do c req) ;;
      match res with
      | inr e => ret ([], Some e)
      | inl res =>
          r <- invoke call_DataResponse (response.DataResponse res) ;;
          let '(resp, err) := r in
          match err, storage c with
          | None, Some st =>
              invoke (call_StoreAuthnToken resp) (storage.StoreAuthnToken st resp) ;;;
              ret (resp, err)
          | _, _ => ret (resp, err)
          end
      end
  end.

(** *** Vocabulary for the statements below *)

(** The state in which staleness is evaluated once the cached token, if
    any, has been taken over. *)
Definition hydrated (cached : option authn.AuthnToken) (s : State) : State :=
  match cached with
  | Some token => installed token s
  | None => s
  end.

(** The second statement of [RefreshToken], run from state [s]. *)
Definition refresh_if_stale (s : State) : Outcome (option error) :=
  match NeedsTokenRefresh s with
  | Ret true s1 => refreshToken s1
  | Ret false s1 => Ret None s1
  | Panic => Panic
  end.

(** A refresh attempt of authenticator [a], started in world [w0], fails
    with [e] and leaves world [w]: either the authenticator returns [e], or
    the bytes it returns do not parse into a token. *)
Definition attempt_fails (a : authn.Authenticator World) (w0 : World)
    (e : error) (w : World) : Prop :=
  exists tokenBytes,
    authn.RefreshToken a w0 = ((tokenBytes, Some e), w) \/
    (authn.RefreshToken a w0 = ((tokenBytes, None), w) /\
     authn.NewToken tokenBytes = inr e).

(** How often the authenticator was asked for a token among [cs]. *)
Fixpoint refresh_attempts (cs : list Call) : nat :=
  match cs with
  | [] => 0
  | call_Authenticator_RefreshToken :: rest => S (refresh_attempts rest)
  | _ :: rest => refresh_attempts rest
  end.

(** Whether [cs] contains a write to the credential store's token. *)
Fixpoint writes_token (cs : list Call) : bool :=
  match cs with
  | [] => false
  | call_StoreAuthnToken _ :: _ => true
  | _ :: rest => writes_token rest
  end.

End Client.

Arguments t World {_ _}.
Arguments State World {_ _}.
Arguments Call : clear implicits.
Arguments Ret {World _ _ A}.
Arguments Panic {World _ _ A}.

End Client.

(** ** Test doubles

    An in-memory world in the manner of the package's Go tests: a clock, a
    credential store that can be made to fail, a server that answers every
    request with a canned response, and a token payload that is simply the
    issuance time in decimal digits (seconds).  Tokens live 8 minutes and
    are refreshed after 6. *)

Module Sim.

Record World : Type := mkWorld {
  now : Z;
  cachedToken : option bytes;
  credentials : option (string * string);
  storeBroken : bool;
  serverBody : bytes
}.

Definition digit (x : Byte.byte) : option Z :=
  let n := Z.of_N (Byte.to_N x) in
  if ((48 <=? n) && (n <=? 57))%Z then Some (n - 48)%Z else None.

Fixpoint digits (acc : Z) (data : bytes) : option Z :=
  match data with
  | [] => Some acc
  | x :: rest =>
      match digit x with
      | Some d => digits (acc * 10 + d)%Z rest
      | None => None
      end
  end.

Definition issuedAtOf (data : bytes) : option Z :=
  match data with
  | [] => None
  | _ => digits 0 data
  end.

Definition lifetime : Z := 480.
Definition margin : Z := 120.

#[global] Instance tokens : authn.API World := {
  authn.AuthnToken := authn.Model.Token;
  authn.NewToken := authn.Model.NewToken issuedAtOf;
  authn.FromJSON := authn.Model.FromJSON issuedAtOf;
  authn.Raw := authn.Model.Raw;
  authn.ShouldRefresh := fun t w => authn.Model.ShouldRefresh lifetime margin t (now w)
}.

Record Response : Type := { StatusCode : Z; body : bytes }.

#[global] Instance responses : response.API World := {
  response.Response := Response;
  response.DataResponse := fun res w =>
    if (StatusCode res <? 300)%Z then ((body res, None), w)
    else (([], Some "request failed"), w)
}.

Definition StoreUnavailable : error := "store unavailable".

Definition memoryStore : storage.Provider World :=
  {| storage.ReadAuthnToken := fun w =>
       if storeBroken w then (([], Some StoreUnavailable), w)
       else match cachedToken w with
            | Some data => ((data, None), w)
            | None => (([], Some "no cached token"), w)
            end;
     storage.StoreAuthnToken := fun data w =>
       if storeBroken w then (Some StoreUnavailable, w)
       else (None, {| now := now w; cachedToken := Some data;
                      credentials := credentials w;
                      storeBroken := storeBroken w;
                      serverBody := serverBody w |});
     storage.StoreCredentials := fun login apiKey w =>
       if storeBroken w then (Some StoreUnavailable, w)
       else (None, {| now := now w; cachedToken := cachedToken w;
                      credentials := Some (login, apiKey);
                      storeBroken := storeBroken w;
                      serverBody := serverBody w |});
     storage.PurgeCredentials := fun w =>
       if storeBroken w then (Some StoreUnavailable, w)
       else (None, {| now := now w; cachedToken := None;
                      credentials := None;
                      storeBroken := storeBroken w;
                      serverBody := serverBody w |}) |}.

(** The delegate of the authenticator's test: the token for the one valid
    pair, a 401 otherwise.  The token it hands out is a parameter. *)
Definition Authenticate (data : bytes) (loginPair : authn.LoginPair) (w : World)
  : (bytes * option error) * World :=
  if String.eqb (authn.Login loginPair) "valid-login"
     && String.eqb (authn.APIKey loginPair) "valid-api-key"
  then ((data, None), w)
  else (([], Some "401 Invalid"), w).

Definition validPair : authn.LoginPair :=
  {| authn.Login := "valid-login"; authn.APIKey := "valid-api-key" |}.

Definition invalidPair : authn.LoginPair :=
  {| authn.Login := "invalid-login"; authn.APIKey := "valid-api-key" |}.

Definition request (url : string) : http.Request :=
  {| http.Method := "POST"; http.URL := url; http.Header := ∅; http.Body := [] |}.

(** A client around the given token, authenticator and store. *)
Definition client (authnType : string)
    (token : option authn.Model.Token)
    (authenticator : option (authn.Authenticator World))
    (store : option (storage.Provider World)) : Client.t World :=
  {| Client.AuthnType := authnType;
     Client.authToken := token;
     Client.authenticator := authenticator;
     Client.storage := store;
     Client.LoginRequest := fun _ _ => inl (request "/authn/login");
     Client.OidcAuthenticateRequest := fun _ _ _ => inl (request "/authn-oidc/authenticate");
     Client.httpClient_Do := fun _ w =>
       (inl {| StatusCode := 200; body := serverBody w |}, w) |}.

Definition world (t : Z) (cached : option bytes) (broken : bool) (served : string) : World :=
  {| now := t; cachedToken := cached; credentials := None;
     storeBroken := broken; serverBody := list_byte_of_string served |}.

Definition start (c : Client.t World) (w : World) : Client.State World :=
  {| Client.self := c; Client.world := w; Client.calls := [] |}.

Definition payload (s : string) : bytes := list_byte_of_string s.

Definition token (s : string) (T : Z) : authn.Model.Token :=
  {| authn.Model.raw := payload s; authn.Model.issuedAt := T |}.

(** The API-key authenticator of the test, handing out [data]. *)
Definition apiKeyAuthenticator (data : string) (pair : authn.LoginPair)
  : authn.Authenticator World :=
  authn.APIKeyAuthenticator (Authenticate (payload data)) pair.

(** *** Scenarios *)

(** A client that has never authenticated, with valid credentials and a
    working, empty store. *)
Definition first_use : Client.State World :=
  start (client "" None (Some (apiKeyAuthenticator "100" validPair)) (Some memoryStore))
        (world 200 None false "").

(** A client holding a token issued 100 seconds ago. *)
Definition fresh_session : Client.State World :=
  start (client "" (Some (token "1000" 1000))
           (Some (apiKeyAuthenticator "1050" validPair)) (Some memoryStore))
        (world 1100 None false "").

(** A client without authenticator logging in while the store is broken;
    the server answers with the API key. *)
Definition login_with_broken_store : Client.State World :=
  start (client "" None None (Some memoryStore)) (world 1100 None true "api-key").

(** An OIDC client holding a token issued 100 seconds ago, whose store
    caches a token issued 1100 seconds ago and whose authenticator is
    rejected by the server. *)
Definition oidc_stale_cache : Client.State World :=
  start (client "oidc" (Some (token "1000" 1000))
           (Some (apiKeyAuthenticator "1050" invalidPair)) (Some memoryStore))
        (world 1100 (Some (payload "0")) false "").

(** An OIDC client whose store caches a token issued 100 seconds ago, with
    and without an authenticator. *)
Definition oidc_cached : Client.State World :=
  start (client "oidc" None
           (Some (apiKeyAuthenticator "1050" validPair)) (Some memoryStore))
        (world 1100 (Some (payload "1000")) false "").

Definition oidc_cached_no_authenticator : Client.State World :=
  start (client "oidc" None None (Some memoryStore))
        (world 1100 (Some (payload "1000")) false "").

(** An OIDC client that was given no store. *)
Definition oidc_no_store : Client.State World :=
  start (client "oidc" None (Some (apiKeyAuthenticator "1050" validPair)) None)
        (world 1100 None false "").

(** An OIDC login exchange answered with a token, the store being broken. *)
Definition oidc_exchange_with_broken_store : Client.State World :=
  start (client "oidc" None None (Some memoryStore)) (world 1100 None true "1100").

End Sim.

(** ** net/url, [QueryEscape] *)

Module url.

Definition upperhex : string := "0123456789ABCDEF".

(** [upperhex[i]] for [i] below 16. *)
Definition hexdigit (i : N) : ascii :=
  match String.get (N.to_nat i) upperhex with
  | Some ch => ch
  | None => "0"%char
  end.

Definition between (lo hi c : ascii) : bool :=
  (N_of_ascii lo <=? N_of_ascii c)%N && (N_of_ascii c <=? N_of_ascii hi)%N.

Definition one_of (set : string) (c : ascii) : bool :=
  existsb (Ascii.eqb c) (list_ascii_of_string set).

(** [shouldEscape(c, encodeQueryComponent)]: letters and digits are kept,
    so are the four unreserved marks; the reserved characters and
    everything else are escaped. *)
Definition shouldEscape (c : ascii) : bool :=
  if between "a" "z" c || between "A" "Z" c || between "0" "9" c then false
  else if one_of "-_.~" c then false
  else if one_of "$&+,/:;=?@" c then true
  else true.

(** [escape(s, encodeQueryComponent)]: a space becomes a plus sign, a
    character to escape becomes a percent sign and two upper-case hex
    digits, any other character is copied. *)
Fixpoint QueryEscape (s : string) : string :=
  match s with
  | EmptyString => EmptyString
  | String c rest =>
      if Ascii.eqb c " " then String "+" (QueryEscape rest)
      else if shouldEscape c then
        String "%" (String (hexdigit (N.shiftr (N_of_ascii c) 4))
                      (String (hexdigit (N.land (N_of_ascii c) 15))
                         (QueryEscape rest)))
      else String c (QueryEscape rest)
  end.

End url.

(** ** net/url, [QueryUnescape] (what a server applies to an escaped
    segment): [None] stands for the [EscapeError] *)

Module unescape.

Definition ishex (c : ascii) : bool :=
  url.between "0" "9" c || url.between "a" "f" c || url.between "A" "F" c.

Definition unhex (c : ascii) : N :=
  if url.between "0" "9" c then N_of_ascii c - N_of_ascii "0"
  else if url.between "a" "f" c then N_of_ascii c - N_of_ascii "a" + 10
  else if url.between "A" "F" c then N_of_ascii c - N_of_ascii "A" + 10
  else 0.

Definition cons_char (c : ascii) (o : option string) : option string :=
  match o with
  | Some s => Some (String c s)
  | None => None
  end.

Fixpoint QueryUnescape (s : string) : option string :=
  match s with
  | EmptyString => Some EmptyString
  | String c rest =>
      if Ascii.eqb c "%" then
        match rest with
        | String h (String l rest') =>
            if ishex h && ishex l then
              cons_char (ascii_of_N (N.lor (N.shiftl (unhex h) 4) (unhex l)))
                        (QueryUnescape rest')
            else None
        | _ => None
        end
      else if Ascii.eqb c "+" then cons_char " " (QueryUnescape rest)
      else cons_char c (QueryUnescape rest)
  end.

End unescape.

(** The characters [QueryEscape] lets through or produces. *)
Definition escaped_char (c : ascii) : bool :=
  url.between "a" "z" c || url.between "A" "Z" c || url.between "0" "9" c ||
  url.one_of "-_.~+%" c.

(** The characters of the standard base64 alphabet and the padding. *)
Definition base64_char (c : ascii) : bool :=
  url.between "a" "z" c || url.between "A" "Z" c || url.between "0" "9" c ||
  url.one_of "+/=" c.

(** ** strings, [SplitN] with a non-empty separator and a count that is not
    negative (the router calls it with a colon and 3) *)

Fixpoint string_drop (n : nat) (s : string) : string :=
  match n, s with
  | O, _ => s
  | S n', String _ rest => string_drop n' rest
  | S _, EmptyString => EmptyString
  end.

(** [strings.Index(s, sep)] as the two pieces the split loop takes:
    [s[:m]] and [s[m+len(sep):]] for the first occurrence [m] of [sep],
    nothing if [sep] does not occur. *)
Fixpoint strings_Cut (sep s : string) : option (string * string) :=
  if String.prefix sep s then Some (EmptyString, string_drop (String.length sep) s)
  else match s with
       | EmptyString => None
       | String c rest =>
           match strings_Cut sep rest with
           | Some (before, after) => Some (String c before, after)
           | None => None
           end
       end.

(** The loop of [genSplit]: up to [k] more separators are looked for, the
    rest of the string is the last element. *)
Fixpoint genSplit_loop (sep : string) (k : nat) (s : string) : list string :=
  match k with
  | O => [s]
  | S k' =>
      match strings_Cut sep s with
      | None => [s]
      | Some (before, after) => before :: genSplit_loop sep k' after
      end
  end.

Definition strings_SplitN (s sep : string) (n : nat) : list string :=
  match n with
  | O => []
  | S k => genSplit_loop sep k s
  end.

(** ** Index expressions: out of range is a run-time panic *)

Inductive Run (A : Type) : Type :=
| Done (a : A)
| IndexOutOfRange.
Arguments Done {A}.
Arguments IndexOutOfRange {A}.

Definition at_index (tokens : list string) (i : nat) : Run string :=
  match nth_error tokens i with
  | Some x => Done x
  | None => IndexOutOfRange
  end.

(** ** [RouterV5] *)

Module RouterV5.
Section RouterV5.

(** [http.NewRequest(method, url, body)], a body being the bytes its
    reader yields, and [makeFullId] from another file of the package. *)
Variable http_NewRequest : string -> string -> bytes -> http.Request + error.
Variable makeFullId : string -> string -> string -> string.

(** [RouterV5{Config *Config}], the pointer taken to be non-nil. *)
Record t : Type := mk { Config_ : Config.t }.

(** The local [authenticateUrl] of [AuthenticateRequest]. *)
Definition authenticateUrl (self : t) (loginPair : authn.LoginPair) : string :=
  Config.ApplianceURL (Config_ self) +:+ "/authn/" +:+
  Config.Account (Config_ self) +:+ "/" +:+
  url.QueryEscape (authn.Login loginPair) +:+ "/authenticate".

Definition AuthenticateRequest (self : t) (loginPair : authn.LoginPair)
  : http.Request + error :=
  match http_NewRequest "POST" (authenticateUrl self loginPair)
          (list_byte_of_string (authn.APIKey loginPair)) with
  | inr err => inr err
  | inl req => inl (http.Header_Set req "Content-Type" "text/plain")
  end.

(** The URL built from three tokens of a full id. *)
Definition resourceUrl (self : t) (kind : string) (tokens : list string) : Run string :=
  match at_index tokens 0, at_index tokens 1, at_index tokens 2 with
  | Done account, Done resource, Done id =>
      Done (Config.ApplianceURL (Config_ self) +:+ "/" +:+ kind +:+ "/" +:+
            account +:+ "/" +:+ resource +:+ "/" +:+ url.QueryEscape id)
  | _, _, _ => IndexOutOfRange
  end.

Definition variableURL (self : t) (variableId : string) : Run string :=
  let tokens := strings_SplitN variableId ":" 3 in
  resourceUrl self "secrets" tokens.

Definition LoadPolicyRequest (self : t) (policyId : string) (policy : bytes)
  : Run (http.Request + error) :=
  let policyId := makeFullId (Config.Account (Config_ self)) "policy" policyId in
  let tokens := strings_SplitN policyId ":" 3 in
  match resourceUrl self "policies" tokens with
  | Done policyUrl => Done (http_NewRequest "PUT" policyUrl policy)
  | IndexOutOfRange => IndexOutOfRange
  end.

Definition RetrieveSecretRequest (self : t) (variableId : string)
  : Run (http.Request + error) :=
  let variableId := makeFullId (Config.Account (Config_ self)) "variable" variableId in
  match variableURL self variableId with
  | Done u => Done (http_NewRequest "GET" u [])
  | IndexOutOfRange => IndexOutOfRange
  end.

Definition AddSecretRequest (self : t) (variableId secretValue : string)
  : Run (http.Request + error) :=
  let variableId := makeFullId (Config.Account (Config_ self)) "variable" variableId in
  match variableURL self variableId with
  | Done u => Done (http_NewRequest "POST" u (list_byte_of_string secretValue))
  | IndexOutOfRange => IndexOutOfRange
  end.

End RouterV5.
End RouterV5.

(** ** Package response: [ConjurError] *)

Module ConjurErrorDetails.

(** [Details] is a [map[string]interface{}]; [Any] stands for the values. *)
Record t (Any : Type) : Type := mk {
  Message : string;
  Code : string;
  Target : string;
  Details : gmap string Any
}.
Arguments Message {Any}.
Arguments Code {Any}.
Arguments Target {Any}.
Arguments Details {Any}.

End ConjurErrorDetails.

Module ConjurError.
Section ConjurError.

Variable Any : Type.

Record t : Type := mk {
  Code : Z;
  Message : string;
  Details : option (ConjurErrorDetails.t Any)
}.

(** What [NewConjurError] uses of the [*http.Response]: the status code,
    the status line and what [io.ReadAll(resp.Body)] returns. *)
Record Response : Type := mkResponse {
  StatusCode : Z;
  Status : string;
  Body_ReadAll : bytes * option error
}.

(** [json.Unmarshal(body, &cerr)]: the error value after the call and the
    error; [strings.TrimSpace]. *)
Variable json_Unmarshal : bytes -> t -> t * option error.
Variable strings_TrimSpace : string -> string.

(** The [error] that [NewConjurError] returns: the error of the read, or
    the pointer to the [ConjurError] built. *)
Inductive Failure : Type :=
| ReadFailed (err : error)
| Conjur (cerr : t).

Definition with_Message (cerr : t) (message : string) : t :=
  {| Code := Code cerr; Message := message; Details := Details cerr |}.

Definition NewConjurError (resp : Response) : Failure :=
  let '(body, err) := Body_ReadAll resp in
  match err with
  | Some e => ReadFailed e
  | None =>
      let cerr := {| Code := StatusCode resp; Message := ""; Details := None |} in
      let '(cerr, err) := json_Unmarshal body cerr in
      let cerr :=
        match err with
        | Some _ => with_Message cerr (strings_TrimSpace (string_of_bytes body))
        | None => cerr
        end in
      let cerr :=
        if String.eqb (Message cerr) "" then with_Message cerr (Status resp)
        else cerr in
      Conjur cerr
  end.

(** The writes to the [strings.Builder], in order; the debug log line
    written first is left out. *)
Definition Error (cerr : t) : string :=
  let b := "" in
  let b := if negb (String.eqb (Message cerr) "") then b +:+ (Message cerr +:+ ". ")
           else b in
  let b := match Details cerr with
           | Some details =>
               if negb (String.eqb (ConjurErrorDetails.Message details) "")
               then b +:+ (ConjurErrorDetails.Message details +:+ ".")
               else b
           | None => b
           end in
  b.

End ConjurError.

Arguments Code {Any}.
Arguments Message {Any}.
Arguments Details {Any}.
Arguments ReadFailed {Any}.
Arguments Conjur {Any}.
Arguments Error {Any}.

End ConjurError.

(** ** The client, continued: [Authenticate] *)

Module ClientAuthenticate.
Section ClientAuthenticate.

Context {World : Type} `{!authn.API World} `{!response.API World}.

(** [c.AuthenticateRequest], a method of the client from another file. *)
Variable AuthenticateRequest : Client.t World -> authn.LoginPair -> http.Request + error.

Notation "x <- m ;; k" := (Client.bind m (fun x => k))
  (at level 100, m at next level, right associativity).

Definition authenticate (loginPair : authn.LoginPair)
  : Client.M (response.Response + error) :=
  c <- Client.get ;;
  match AuthenticateRequest c loginPair with
  | inr e => Client.ret (inr e)
  | inl req =>
      Client.invoke (Client.call_httpClient_Do req) (Client.httpClient_Do c req)
  end.

Definition Authenticate (loginPair : authn.LoginPair)
  : Client.M (bytes * option error) :=
  resp <- authenticate loginPair ;;
  match resp with
  | inr e => Client.ret ([], Some e)
  | inl resp => Client.invoke Client.call_DataResponse (response.DataResponse resp)
  end.

End ClientAuthenticate.
End ClientAuthenticate.

(** ** Vocabulary for further statements about the client *)

Module ClientFrame.
Section ClientFrame.

Context {World : Type} `{!authn.API World} `{!response.API World}.

(** Two clients that differ at most in [authToken]. *)
Definition same_collaborators (c c' : Client.t World) : Prop :=
  Client.AuthnType c' = Client.AuthnType c /\
  Client.authenticator c' = Client.authenticator c /\
  Client.storage c' = Client.storage c /\
  Client.LoginRequest c' = Client.LoginRequest c /\
  Client.OidcAuthenticateRequest c' = Client.OidcAuthenticateRequest c /\
  Client.httpClient_Do c' = Client.httpClient_Do c.

(** The calls that go to the credential store. *)
Definition touches_store (c : Client.Call) : bool :=
  match c with
  | Client.call_ReadAuthnToken
  | Client.call_StoreAuthnToken _
  | Client.call_StoreCredentials _ _
  | Client.call_PurgeCredentials => true
  | _ => false
  end.

End ClientFrame.
End ClientFrame.

(** ** Test doubles for the router and the error type *)

Module SimRouter.

(** A control character makes [url.Parse], and so [http.NewRequest], fail. *)
Definition control (c : ascii) : bool :=
  (N_of_ascii c <? 32)%N || (N_of_ascii c =? 127)%N.

Definition NewRequest (method url : string) (body : bytes) : http.Request + error :=
  if existsb control (list_ascii_of_string url)
  then inr "net/url: invalid control character in URL"
  else inl {| http.Method := method; http.URL := url;
              http.Header := ∅; http.Body := body |}.

Definition router : RouterV5.t :=
  RouterV5.mk (Config.mk "cucumber" "" "https://conjur.example" "" "").

Definition alice : authn.LoginPair :=
  {| authn.Login := "host/alice"; authn.APIKey := "s3cret" |}.

(** A decoder that understands nothing, and one that reads a message. *)
Definition Unmarshal_fails (body : bytes) (cerr : ConjurError.t unit)
  : ConjurError.t unit * option error :=
  (cerr, Some "invalid character").

Definition notFound : ConjurError.Response :=
  {| ConjurError.StatusCode := 404; ConjurError.Status := "404 Not Found";
     ConjurError.Body_ReadAll := ([], None) |}.

End SimRouter.

(** * Properties *)

(** ** Configuration validation *)

Lemma validate_cases (c : Config.t) :
  Config.validate c =
    match String.eqb (Config.Account c) "", String.eqb (Config.ApplianceURL c) "" with
    | false, false => None
    | true, false => Some "Account is required."
    | false, true => Some "ApplianceURL is required."
    | true, true =>
        Some ("Account is required." +:+ newline +:+ "ApplianceURL is required.")
    end.
Proof.
  unfold Config.validate; cbn [Config.loop Config.Type_Field].
  unfold Config.visit; cbn.
  destruct (String.eqb (Config.Account c) ""),
           (String.eqb (Config.ApplianceURL c) ""); reflexivity.
Qed.

(** C10.  [validate] returns nil exactly when both [Account] and
    [ApplianceURL] are non-empty; otherwise its error message lists, joined
    by newlines and in field declaration order, one line per empty required
    field; the fields [APIKey], [Login] and [AuthnTokenFile] do not affect
    the result. *)
Theorem validate_required_fields (c : Config.t) :
  (Config.validate c = None <->
     Config.Account c <> "" /\ Config.ApplianceURL c <> "") /\
  Config.validate c =
    (let missing :=
       ((if String.eqb (Config.Account c) "" then ["Account is required."] else []) ++
        (if String.eqb (Config.ApplianceURL c) "" then ["ApplianceURL is required."] else []))%list in
     match missing with
     | [] => None
     | _ => Some (strings_Join missing newline)
     end) /\
  (forall apiKey login authnTokenFile,
     Config.validate
       (Config.mk (Config.Account c) apiKey (Config.ApplianceURL c) login authnTokenFile)
     = Config.validate c).
Proof.
  split; [|split].
  - rewrite validate_cases.
    destruct (String.eqb_spec (Config.Account c) ""),
             (String.eqb_spec (Config.ApplianceURL c) "");
      split; try discriminate; try tauto; intros _; split; assumption.
  - rewrite validate_cases.
    destruct (String.eqb (Config.Account c) ""),
             (String.eqb (Config.ApplianceURL c) ""); reflexivity.
  - intros. rewrite !validate_cases. reflexivity.
Qed.

(** ** Token freshness (model of package authn) *)

(** C9.  Queried at time [t], a token issued at [T] reports false for
    every [t < T + (L - M)] and true for every [t >= T + (L - M)]; the
    answer is a function of the issuance time and the query time alone. *)
Theorem ShouldRefresh_threshold (L M : Z) (tok : authn.Model.Token) (t : Z) :
  ((t < authn.Model.issuedAt tok + (L - M))%Z ->
     authn.Model.ShouldRefresh L M tok t = false) /\
  ((t >= authn.Model.issuedAt tok + (L - M))%Z ->
     authn.Model.ShouldRefresh L M tok t = true) /\
  (forall tok' : authn.Model.Token,
     authn.Model.issuedAt tok' = authn.Model.issuedAt tok ->
     authn.Model.ShouldRefresh L M tok' t = authn.Model.ShouldRefresh L M tok t).
Proof.
  unfold authn.Model.ShouldRefresh.
  split; [|split].
  - intros Hlt. apply Z.leb_gt. lia.
  - intros Hge. apply Z.leb_le. lia.
  - intros tok' ->. reflexivity.
Qed.

(** ** The client: how each method runs *)

Section ClientFacts.

Context {World : Type} `{!authn.API World} `{!response.API World}.

Implicit Types (s : Client.State World) (a : authn.Authenticator World)
  (st : storage.Provider World).

Ltac run :=
  unfold Client.bind, Client.get, Client.ret, Client.panic, Client.invoke,
    Client.observe, Client.set_authToken; cbn [Client.self Client.world Client.calls].

Lemma refresh_attempts_app (cs ds : list (Client.Call)) :
  Client.refresh_attempts (cs ++ ds) =
  Client.refresh_attempts cs + Client.refresh_attempts ds.
Proof.
  induction cs as [|c cs IH]; [reflexivity|].
  destruct c; cbn; rewrite IH; reflexivity.
Qed.

Lemma refresh_attempts_snoc (cs : list (Client.Call)) :
  Client.refresh_attempts (cs ++ [Client.call_Authenticator_RefreshToken]) =
  S (Client.refresh_attempts cs).
Proof. rewrite refresh_attempts_app. cbn. lia. Qed.

Lemma refresh_attempts_other (cs : list (Client.Call)) :
  Client.refresh_attempts (cs ++ [Client.call_ReadAuthnToken]) =
  Client.refresh_attempts cs.
Proof. rewrite refresh_attempts_app. cbn. lia. Qed.

Lemma refreshToken_run s a :
  Client.authenticator (Client.self s) = Some a ->
  Client.refreshToken s =
    match authn.RefreshToken a (Client.world s) with
    | ((_, Some e), w) =>
        Client.Ret (Some e) (Client.logged Client.call_Authenticator_RefreshToken w s)
    | ((tokenBytes, None), w) =>
        match authn.NewToken tokenBytes with
        | inr e =>
            Client.Ret (Some e) (Client.logged Client.call_Authenticator_RefreshToken w s)
        | inl token =>
            Client.Ret None
              (Client.installed (fst (authn.FromJSON token tokenBytes))
                 (Client.logged Client.call_Authenticator_RefreshToken w s))
        end
    end.
Proof.
  intros Ha. unfold Client.refreshToken, Client.authenticator_RefreshToken. run.
  rewrite Ha. run.
  destruct (authn.RefreshToken a (Client.world s)) as [[tokenBytes [e|]] w]; try reflexivity.
  destruct (authn.NewToken tokenBytes); reflexivity.
Qed.

Lemma refreshToken_nil_authenticator s :
  Client.authenticator (Client.self s) = None ->
  Client.refreshToken s = Client.Panic.
Proof.
  intros Ha. unfold Client.refreshToken, Client.authenticator_RefreshToken. run.
  rewrite Ha. reflexivity.
Qed.

Lemma NeedsTokenRefresh_run s :
  Client.NeedsTokenRefresh s =
    match Client.authToken (Client.self s) with
    | None => Client.Ret true s
    | Some token =>
        if authn.ShouldRefresh token (Client.world s) then Client.Ret true s
        else match Client.authenticator (Client.self s) with
             | Some a => Client.Ret (authn.NeedsTokenRefresh a (Client.world s)) s
             | None => Client.Panic
             end
    end.
Proof.
  unfold Client.NeedsTokenRefresh, Client.authenticator_NeedsTokenRefresh. run.
  destruct (Client.authToken (Client.self s)) as [token|]; [|reflexivity].
  destruct (authn.ShouldRefresh token (Client.world s)); [reflexivity|].
  destruct (Client.authenticator (Client.self s)); reflexivity.
Qed.

Lemma readCachedAccessToken_run s st :
  Client.storage (Client.self s) = Some st ->
  Client.readCachedAccessToken s =
    match storage.ReadAuthnToken st (Client.world s) with
    | ((_, Some _), w) => Client.Ret None (Client.logged Client.call_ReadAuthnToken w s)
    | ((tokenBytes, None), w) =>
        match authn.NewToken tokenBytes with
        | inr _ => Client.Ret None (Client.logged Client.call_ReadAuthnToken w s)
        | inl token =>
            Client.Ret (Some (fst (authn.FromJSON token (authn.Raw token))))
              (Client.logged Client.call_ReadAuthnToken w s)
        end
    end.
Proof.
  intros Hst. unfold Client.readCachedAccessToken. run. rewrite Hst. run.
  destruct (storage.ReadAuthnToken st (Client.world s)) as [[tokenBytes [e|]] w];
    try reflexivity.
  destruct (authn.NewToken tokenBytes); reflexivity.
Qed.

Lemma readCachedAccessToken_nil_storage s :
  Client.storage (Client.self s) = None ->
  Client.readCachedAccessToken s = Client.Panic.
Proof.
  intros Hst. unfold Client.readCachedAccessToken. run. rewrite Hst. reflexivity.
Qed.

Lemma NeedsTokenRefresh_state s (stale : bool) s' :
  Client.NeedsTokenRefresh s = Client.Ret stale s' -> s' = s.
Proof.
  rewrite NeedsTokenRefresh_run.
  destruct (Client.authToken (Client.self s)) as [token|]; [|congruence].
  destruct (authn.ShouldRefresh token (Client.world s)); [congruence|].
  destruct (Client.authenticator (Client.self s)); [congruence|discriminate].
Qed.

Lemma readCachedAccessToken_state s cached s0 :
  Client.readCachedAccessToken s = Client.Ret cached s0 ->
  Client.self s0 = Client.self s /\
  Client.calls s0 = (Client.calls s ++ [Client.call_ReadAuthnToken])%list.
Proof.
  destruct (Client.storage (Client.self s)) as [st|] eqn:Hst.
  - rewrite (readCachedAccessToken_run s st Hst).
    destruct (storage.ReadAuthnToken st (Client.world s)) as [[tokenBytes [e|]] w].
    + intros [= _ <-]. split; reflexivity.
    + destruct (authn.NewToken tokenBytes); intros [= _ <-]; split; reflexivity.
  - rewrite (readCachedAccessToken_nil_storage s Hst). discriminate.
Qed.

Lemma RefreshToken_not_oidc s :
  Client.AuthnType (Client.self s) <> "oidc" ->
  Client.RefreshToken s = Client.refresh_if_stale s.
Proof.
  intros Hty. apply String.eqb_neq in Hty.
  unfold Client.RefreshToken, Client.refresh_if_stale. run. rewrite Hty.
  destruct (Client.NeedsTokenRefresh s) as [[|] s1|]; reflexivity.
Qed.

Lemma RefreshToken_oidc s :
  Client.AuthnType (Client.self s) = "oidc" ->
  Client.RefreshToken s =
    match Client.readCachedAccessToken s with
    | Client.Ret cached s0 => Client.refresh_if_stale (Client.hydrated cached s0)
    | Client.Panic => Client.Panic
    end.
Proof.
  intros Hty. apply String.eqb_eq in Hty.
  unfold Client.RefreshToken, Client.refresh_if_stale. run. rewrite Hty.
  destruct (Client.readCachedAccessToken s) as [[token|] s0|];
    unfold Client.hydrated; cbv beta iota; try reflexivity.
  - destruct (Client.NeedsTokenRefresh (Client.installed token s0)) as [[|] s1|];
      reflexivity.
  - destruct (Client.NeedsTokenRefresh s0) as [[|] s1|]; reflexivity.
Qed.

Lemma refreshToken_fails s a e w :
  Client.authenticator (Client.self s) = Some a ->
  Client.attempt_fails a (Client.world s) e w ->
  Client.refreshToken s =
    Client.Ret (Some e) (Client.logged Client.call_Authenticator_RefreshToken w s).
Proof.
  intros Ha [tokenBytes [Hr | [Hr Hp]]]; rewrite (refreshToken_run s a Ha), Hr.
  - reflexivity.
  - rewrite Hp. reflexivity.
Qed.

(** ** Staleness *)

(** C7.  [NeedsTokenRefresh] returns true exactly when the client holds no
    token, or the held token should refresh, or the authenticator asks for
    a refresh; it changes nothing; and a client without a token always
    reports that a refresh is required. *)
Theorem NeedsTokenRefresh_true_iff s :
  (Client.returned (Client.NeedsTokenRefresh s) = Some true <->
     Client.authToken (Client.self s) = None \/
     (exists token, Client.authToken (Client.self s) = Some token /\
                    authn.ShouldRefresh token (Client.world s) = true) \/
     (exists a, Client.authenticator (Client.self s) = Some a /\
                authn.NeedsTokenRefresh a (Client.world s) = true)) /\
  (forall stale s', Client.NeedsTokenRefresh s = Client.Ret stale s' -> s' = s) /\
  (Client.authToken (Client.self s) = None ->
     Client.NeedsTokenRefresh s = Client.Ret true s).
Proof.
  split; [|split].
  - rewrite NeedsTokenRefresh_run.
    destruct (Client.authToken (Client.self s)) as [token|] eqn:Htok.
    + destruct (authn.ShouldRefresh token (Client.world s)) eqn:Hstale.
      * split; [intros _ | reflexivity]. right; left. eauto.
      * destruct (Client.authenticator (Client.self s)) as [a|] eqn:Ha; cbn.
        -- split.
           ++ intros [= Hn]. right; right. eauto.
           ++ intros [Hnone | [(token' & [= <-] & Hs) | (a' & [= <-] & Hn)]];
                congruence.
        -- split; [discriminate|].
           intros [Hnone | [(token' & [= <-] & Hs) | (a' & Ha' & _)]]; congruence.
    + split; [intros _; left|]; reflexivity.
  - apply NeedsTokenRefresh_state.
  - intros Htok. rewrite NeedsTokenRefresh_run, Htok. reflexivity.
Qed.

(** ** Forced refresh *)

(** C6.  For a client with an authenticator, [ForceRefreshToken] makes
    exactly one call to the authenticator's [RefreshToken], whatever the
    current token and whatever [NeedsTokenRefresh] would say, and when the
    returned bytes parse, the token built from them replaces the current
    one. *)
Theorem ForceRefreshToken_one_refresh s a :
  Client.authenticator (Client.self s) = Some a ->
  exists err s',
    Client.ForceRefreshToken s = Client.Ret err s' /\
    Client.calls s' = (Client.calls s ++ [Client.call_Authenticator_RefreshToken])%list /\
    Client.world s' = snd (authn.RefreshToken a (Client.world s)) /\
    (forall tokenBytes token,
       fst (authn.RefreshToken a (Client.world s)) = (tokenBytes, None) ->
       authn.NewToken tokenBytes = inl token ->
       err = None /\
       Client.authToken (Client.self s') = Some (fst (authn.FromJSON token tokenBytes))).
Proof.
  intros Ha. unfold Client.ForceRefreshToken. rewrite (refreshToken_run s a Ha).
  destruct (authn.RefreshToken a (Client.world s)) as [[tokenBytes [e|]] w]; cbn [fst snd].
  - eexists _, _. split; [reflexivity|]. repeat split; try reflexivity; discriminate.
  - destruct (authn.NewToken tokenBytes) as [token|e] eqn:Hp.
    + eexists _, _. split; [reflexivity|]. split; [reflexivity|]. split; [reflexivity|].
      intros ? ? [= <-]. rewrite Hp. intros [= <-]. split; reflexivity.
    + eexists _, _. split; [reflexivity|]. split; [reflexivity|]. split; [reflexivity|].
      intros ? ? [= <-]. rewrite Hp. discriminate.
Qed.

(** ** Failed refresh *)

(** C3, as the code has it.  When the refresh attempt fails with [e]
    (the authenticator returns [e], or its bytes do not parse),
    [ForceRefreshToken] and [RefreshToken] return [e] after exactly one
    call to the authenticator, and the attempt does not touch [authToken]:
    after [ForceRefreshToken], and after [RefreshToken] on a client that is
    not OIDC, the field is what it was before the call; after
    [RefreshToken] on an OIDC client it is the cached token when one was
    read and parsed, and what it was before the call otherwise. *)
Theorem failed_refresh_is_returned s a e w :
  Client.authenticator (Client.self s) = Some a ->
  (Client.attempt_fails a (Client.world s) e w ->
     exists s',
       Client.ForceRefreshToken s = Client.Ret (Some e) s' /\
       Client.authToken (Client.self s') = Client.authToken (Client.self s) /\
       Client.refresh_attempts (Client.calls s') = S (Client.refresh_attempts (Client.calls s))) /\
  (Client.AuthnType (Client.self s) <> "oidc" ->
   Client.NeedsTokenRefresh s = Client.Ret true s ->
   Client.attempt_fails a (Client.world s) e w ->
     exists s',
       Client.RefreshToken s = Client.Ret (Some e) s' /\
       Client.authToken (Client.self s') = Client.authToken (Client.self s) /\
       Client.refresh_attempts (Client.calls s') = S (Client.refresh_attempts (Client.calls s))) /\
  (forall cached s0,
   Client.AuthnType (Client.self s) = "oidc" ->
   Client.readCachedAccessToken s = Client.Ret cached s0 ->
   Client.NeedsTokenRefresh (Client.hydrated cached s0)
     = Client.Ret true (Client.hydrated cached s0) ->
   Client.attempt_fails a (Client.world s0) e w ->
     exists s',
       Client.RefreshToken s = Client.Ret (Some e) s' /\
       Client.authToken (Client.self s') =
         match cached with
         | Some token => Some token
         | None => Client.authToken (Client.self s)
         end /\
       Client.refresh_attempts (Client.calls s') = S (Client.refresh_attempts (Client.calls s))).
Proof.
  intros Ha. split; [|split].
  - intros Hf. eexists. unfold Client.ForceRefreshToken.
    rewrite (refreshToken_fails s a e w Ha Hf).
    split; [reflexivity|]. split; [reflexivity|]. apply refresh_attempts_snoc.
  - intros Hty Hn Hf. eexists.
    rewrite (RefreshToken_not_oidc s Hty). unfold Client.refresh_if_stale. rewrite Hn.
    rewrite (refreshToken_fails s a e w Ha Hf).
    split; [reflexivity|]. split; [reflexivity|]. apply refresh_attempts_snoc.
  - intros cached s0 Hty Hr Hn Hf.
    destruct (readCachedAccessToken_state s cached s0 Hr) as [Hself Hcalls].
    assert (Ha' : Client.authenticator (Client.self (Client.hydrated cached s0)) = Some a)
      by (destruct cached; cbn; rewrite Hself; exact Ha).
    assert (Hw : Client.world (Client.hydrated cached s0) = Client.world s0)
      by (destruct cached; reflexivity).
    rewrite <- Hw in Hf.
    eexists. rewrite (RefreshToken_oidc s Hty), Hr.
    unfold Client.refresh_if_stale. rewrite Hn.
    rewrite (refreshToken_fails _ a e w Ha' Hf).
    split; [reflexivity|]. split.
    + destruct cached; cbn; [reflexivity | rewrite Hself; reflexivity].
    + cbn [Client.logged Client.calls].
      rewrite refresh_attempts_snoc.
      destruct cached; cbn [Client.hydrated Client.installed Client.calls];
        rewrite Hcalls, refresh_attempts_other; reflexivity.
Qed.

(** ** Stamping a request *)

Lemma refresh_if_stale_holds_token s s' :
  Client.refresh_if_stale s = Client.Ret None s' ->
  exists token, Client.authToken (Client.self s') = Some token.
Proof.
  unfold Client.refresh_if_stale.
  destruct (Client.NeedsTokenRefresh s) as [[|] s1|] eqn:Hn; [| |discriminate];
    pose proof (NeedsTokenRefresh_state _ _ _ Hn) as ->.
  - destruct (Client.authenticator (Client.self s)) as [a|] eqn:Ha.
    + rewrite (refreshToken_run s a Ha).
      destruct (authn.RefreshToken a (Client.world s)) as [[tokenBytes [e|]] w];
        [discriminate|].
      destruct (authn.NewToken tokenBytes) as [token|e]; [|discriminate].
      intros [= <-]. eexists. reflexivity.
    + rewrite (refreshToken_nil_authenticator s Ha). discriminate.
  - intros [= <-]. rewrite NeedsTokenRefresh_run in Hn.
    destruct (Client.authToken (Client.self s)) as [token|]; [eauto | discriminate].
Qed.

Lemma RefreshToken_holds_token s s' :
  Client.RefreshToken s = Client.Ret None s' ->
  exists token, Client.authToken (Client.self s') = Some token.
Proof.
  destruct (String.eqb_spec (Client.AuthnType (Client.self s)) "oidc") as [Hty|Hty].
  - rewrite (RefreshToken_oidc s Hty).
    destruct (Client.readCachedAccessToken s) as [cached s0|]; [|discriminate].
    apply refresh_if_stale_holds_token.
  - rewrite (RefreshToken_not_oidc s Hty). apply refresh_if_stale_holds_token.
Qed.

Lemma createAuthRequest_run s req :
  Client.createAuthRequest req s =
    match Client.RefreshToken s with
    | Client.Ret (Some e) s' => Client.Ret (Some e, req) s'
    | Client.Ret None s' =>
        match Client.authToken (Client.self s') with
        | Some token =>
            Client.Ret
              (None, http.Header_Set req "Authorization"
                       (Client.authorization (authn.Raw token))) s'
        | None => Client.Panic
        end
    | Client.Panic => Client.Panic
    end.
Proof.
  unfold Client.createAuthRequest. run.
  destruct (Client.RefreshToken s) as [[e|] s'|]; try reflexivity.
  destruct (Client.authToken (Client.self s')); reflexivity.
Qed.

Lemma Header_Set_twice (req : http.Request) (key value : string) :
  http.Header_Set (http.Header_Set req key value) key value
  = http.Header_Set req key value.
Proof.
  unfold http.Header_Set; cbn. f_equal. apply insert_insert_eq.
Qed.

(** C8.  Once the token is in place, stamping sets the Authorization header
    of the request to the single value [Token token=] followed by the
    quoted standard base64 text of the token's raw bytes, leaves every
    other header alone, and stamping the stamped request again with the
    same token leaves it as it is. *)
Theorem createAuthRequest_sets_one_header s s' (req : http.Request) :
  Client.RefreshToken s = Client.Ret None s' ->
  exists token stamped,
    Client.authToken (Client.self s') = Some token /\
    Client.createAuthRequest req s = Client.Ret (None, stamped) s' /\
    http.Header stamped !! "Authorization" =
      Some ["Token token=" +:+ dquote +:+
            base64.EncodeToString (authn.Raw token) +:+ dquote] /\
    (forall key : string, key <> "Authorization" ->
       http.Header stamped !! key = http.Header req !! key) /\
    (forall s'',
       Client.RefreshToken s' = Client.Ret None s'' ->
       Client.authToken (Client.self s'') = Some token ->
       Client.createAuthRequest stamped s' = Client.Ret (None, stamped) s'').
Proof.
  intros Hr. destruct (RefreshToken_holds_token s s' Hr) as [token Htok].
  exists token, (http.Header_Set req "Authorization" (Client.authorization (authn.Raw token))).
  split; [exact Htok|]. split; [|split; [|split]].
  - rewrite createAuthRequest_run, Hr, Htok. reflexivity.
  - cbn. apply lookup_insert_eq.
  - intros key Hkey. cbn. apply lookup_insert_ne. congruence.
  - intros s'' Hr' Htok'.
    rewrite createAuthRequest_run, Hr', Htok', Header_Set_twice. reflexivity.
Qed.

(** ** The credential store *)

Lemma OidcAuthenticate_run s code nonce code_verifier req res w1 resp err w2 :
  Client.OidcAuthenticateRequest (Client.self s) code nonce code_verifier = inl req ->
  Client.httpClient_Do (Client.self s) req (Client.world s) = (inl res, w1) ->
  response.DataResponse res w1 = ((resp, err), w2) ->
  Client.OidcAuthenticate code nonce code_verifier s =
    let s2 := Client.logged Client.call_DataResponse w2
                (Client.logged (Client.call_httpClient_Do req) w1 s) in
    match err, Client.storage (Client.self s) with
    | None, Some st =>
        Client.Ret (resp, None)
          (Client.logged (Client.call_StoreAuthnToken resp)
             (snd (storage.StoreAuthnToken st resp w2)) s2)
    | _, _ => Client.Ret (resp, err) s2
    end.
Proof.
  intros Hreq Hdo Hdata. unfold Client.OidcAuthenticate. run.
  rewrite Hreq. run. rewrite Hdo. cbn. rewrite Hdata. cbn.
  destruct err as [e|]; [reflexivity|].
  destruct (Client.storage (Client.self s)) as [st|]; [|reflexivity].
  run. cbn. destruct (storage.StoreAuthnToken st resp w2); reflexivity.
Qed.

Lemma Login_run s login password req res w1 apiKey w2 :
  Client.LoginRequest (Client.self s) login password = inl req ->
  Client.httpClient_Do (Client.self s) req (Client.world s) = (inl res, w1) ->
  response.DataResponse res w1 = ((apiKey, None), w2) ->
  Client.Login login password s =
    let s2 := Client.logged Client.call_DataResponse w2
                (Client.logged (Client.call_httpClient_Do req) w1 s) in
    match Client.storage (Client.self s) with
    | Some st =>
        Client.Ret
          (apiKey, fst (storage.StoreCredentials st login (string_of_bytes apiKey) w2))
          (Client.logged (Client.call_StoreCredentials login (string_of_bytes apiKey))
             (snd (storage.StoreCredentials st login (string_of_bytes apiKey) w2)) s2)
    | None => Client.Ret (apiKey, None) s2
    end.
Proof.
  intros Hreq Hdo Hdata. unfold Client.Login. run.
  rewrite Hreq. run. rewrite Hdo. cbn. rewrite Hdata. cbn.
  destruct (Client.storage (Client.self s)) as [st|]; [|reflexivity].
  run. cbn.
  destruct (storage.StoreCredentials st login (string_of_bytes apiKey) w2); reflexivity.
Qed.

Lemma PurgeCredentials_run s :
  Client.PurgeCredentials s =
    match Client.storage (Client.self s) with
    | Some st =>
        Client.Ret (fst (storage.PurgeCredentials st (Client.world s)))
          (Client.logged Client.call_PurgeCredentials
             (snd (storage.PurgeCredentials st (Client.world s))) s)
    | None => Client.Ret None s
    end.
Proof.
  unfold Client.PurgeCredentials. run.
  destruct (Client.storage (Client.self s)) as [st|]; [|reflexivity].
  run. destruct (storage.PurgeCredentials st (Client.world s)); reflexivity.
Qed.

Lemma refresh_if_stale_calls s err s' :
  Client.refresh_if_stale s = Client.Ret err s' ->
  Client.calls s' = Client.calls s \/
  Client.calls s' = (Client.calls s ++ [Client.call_Authenticator_RefreshToken])%list.
Proof.
  unfold Client.refresh_if_stale.
  destruct (Client.NeedsTokenRefresh s) as [[|] s1|] eqn:Hn; [| |discriminate];
    pose proof (NeedsTokenRefresh_state _ _ _ Hn) as ->.
  - destruct (Client.authenticator (Client.self s)) as [a|] eqn:Ha.
    + rewrite (refreshToken_run s a Ha).
      destruct (authn.RefreshToken a (Client.world s)) as [[tokenBytes [e|]] w].
      * intros [= _ <-]. right; reflexivity.
      * destruct (authn.NewToken tokenBytes); intros [= _ <-]; right; reflexivity.
    + rewrite (refreshToken_nil_authenticator s Ha). discriminate.
  - intros [= _ <-]. left; reflexivity.
Qed.

Lemma RefreshToken_calls s err s' :
  Client.RefreshToken s = Client.Ret err s' ->
  exists cs, Client.calls s' = (Client.calls s ++ cs)%list /\
             Client.writes_token cs = false.
Proof.
  destruct (String.eqb_spec (Client.AuthnType (Client.self s)) "oidc") as [Hty|Hty].
  - rewrite (RefreshToken_oidc s Hty).
    destruct (Client.readCachedAccessToken s) as [cached s0|] eqn:Hr; [|discriminate].
    destruct (readCachedAccessToken_state s cached s0 Hr) as [_ Hcalls].
    intros Hs. apply refresh_if_stale_calls in Hs.
    assert (Hc : Client.calls (Client.hydrated cached s0) = Client.calls s0)
      by (destruct cached; reflexivity).
    rewrite Hc, Hcalls in Hs. destruct Hs as [-> | ->].
    + exists [Client.call_ReadAuthnToken]. split; reflexivity.
    + exists [Client.call_ReadAuthnToken; Client.call_Authenticator_RefreshToken].
      split; [rewrite <- app_assoc|]; reflexivity.
  - rewrite (RefreshToken_not_oidc s Hty). intros Hs.
    apply refresh_if_stale_calls in Hs. destruct Hs as [-> | ->].
    + exists []. split; [rewrite app_nil_r|]; reflexivity.
    + exists [Client.call_Authenticator_RefreshToken]. split; reflexivity.
Qed.

(** C1, as the code has it.  A refresh does not write to the credential
    store: [refreshToken] makes one call, to the authenticator, and leaves
    the world as the authenticator left it, and no run of [RefreshToken]
    contains a [StoreAuthnToken] call.  The token is written through
    [StoreAuthnToken] by [OidcAuthenticate], when the remote exchange
    succeeded and the client has a store; what the write returns is
    dropped, so a failed write is not surfaced. *)
Theorem token_written_by_OidcAuthenticate_only s :
  (forall a, Client.authenticator (Client.self s) = Some a ->
     exists err s',
       Client.refreshToken s = Client.Ret err s' /\
       Client.calls s' = (Client.calls s ++ [Client.call_Authenticator_RefreshToken])%list /\
       Client.world s' = snd (authn.RefreshToken a (Client.world s))) /\
  (forall err s', Client.RefreshToken s = Client.Ret err s' ->
     exists cs, Client.calls s' = (Client.calls s ++ cs)%list /\
                Client.writes_token cs = false) /\
  (forall st code nonce code_verifier req res w1 resp w2,
     Client.storage (Client.self s) = Some st ->
     Client.OidcAuthenticateRequest (Client.self s) code nonce code_verifier = inl req ->
     Client.httpClient_Do (Client.self s) req (Client.world s) = (inl res, w1) ->
     response.DataResponse res w1 = ((resp, None), w2) ->
     exists s',
       Client.OidcAuthenticate code nonce code_verifier s = Client.Ret (resp, None) s' /\
       Client.calls s' =
         (Client.calls s ++ [Client.call_httpClient_Do req; Client.call_DataResponse;
                             Client.call_StoreAuthnToken resp])%list /\
       Client.world s' = snd (storage.StoreAuthnToken st resp w2)).
Proof.
  split; [|split].
  - intros a Ha. rewrite (refreshToken_run s a Ha).
    destruct (authn.RefreshToken a (Client.world s)) as [[tokenBytes [e|]] w].
    + eexists _, _. repeat split.
    + destruct (authn.NewToken tokenBytes); eexists _, _; repeat split.
  - apply RefreshToken_calls.
  - intros st code nonce code_verifier req res w1 resp w2 Hst Hreq Hdo Hdata.
    rewrite (OidcAuthenticate_run s _ _ _ _ _ _ _ _ _ Hreq Hdo Hdata), Hst.
    eexists. split; [reflexivity|]. split; [|reflexivity].
    cbn. rewrite <- !app_assoc. reflexivity.
Qed.

(** C2, as the code has it.  For a client with a store: a failed
    [ReadAuthnToken] or a cached token that does not parse makes
    [readCachedAccessToken] return nil; [OidcAuthenticate] returns the
    response and no error when the remote call succeeded, whatever
    [StoreAuthnToken] returned; [Login] returns the API key together with
    whatever [StoreCredentials] returned, so a failed write is handed to the
    caller; and [PurgeCredentials] returns what the store's
    [PurgeCredentials] returned. *)
Theorem store_failures s st :
  Client.storage (Client.self s) = Some st ->
  (forall tokenBytes err w,
     storage.ReadAuthnToken st (Client.world s) = ((tokenBytes, err), w) ->
     err <> None \/ (exists e, authn.NewToken tokenBytes = inr e) ->
     Client.readCachedAccessToken s
       = Client.Ret None (Client.logged Client.call_ReadAuthnToken w s)) /\
  (forall code nonce code_verifier req res w1 resp w2,
     Client.OidcAuthenticateRequest (Client.self s) code nonce code_verifier = inl req ->
     Client.httpClient_Do (Client.self s) req (Client.world s) = (inl res, w1) ->
     response.DataResponse res w1 = ((resp, None), w2) ->
     Client.returned (Client.OidcAuthenticate code nonce code_verifier s)
       = Some (resp, None)) /\
  (forall login password req res w1 apiKey w2,
     Client.LoginRequest (Client.self s) login password = inl req ->
     Client.httpClient_Do (Client.self s) req (Client.world s) = (inl res, w1) ->
     response.DataResponse res w1 = ((apiKey, None), w2) ->
     Client.returned (Client.Login login password s)
       = Some (apiKey, fst (storage.StoreCredentials st login (string_of_bytes apiKey) w2))) /\
  Client.returned (Client.PurgeCredentials s)
    = Some (fst (storage.PurgeCredentials st (Client.world s))).
Proof.
  intros Hst. split; [|split; [|split]].
  - intros tokenBytes err w Hread Hmiss.
    rewrite (readCachedAccessToken_run s st Hst), Hread.
    destruct err as [e|]; [reflexivity|].
    destruct Hmiss as [Herr | [e Hparse]]; [congruence|].
    rewrite Hparse. reflexivity.
  - intros code nonce code_verifier req res w1 resp w2 Hreq Hdo Hdata.
    rewrite (OidcAuthenticate_run s _ _ _ _ _ _ _ _ _ Hreq Hdo Hdata), Hst.
    reflexivity.
  - intros login password req res w1 apiKey w2 Hreq Hdo Hdata.
    rewrite (Login_run s _ _ _ _ _ _ _ Hreq Hdo Hdata), Hst. reflexivity.
  - rewrite PurgeCredentials_run, Hst. reflexivity.
Qed.

(** ** Taking over the cached token *)

(** C4.  With [AuthnType] oidc, [RefreshToken] first reads the cached
    token, and staleness is then evaluated with that token installed if one
    was read and parsed, and otherwise on the client as it was; a failed
    read of the store or a cached token that does not parse counts as no
    token, without an error. *)
Theorem RefreshToken_oidc_hydrates s :
  Client.AuthnType (Client.self s) = "oidc" ->
  Client.RefreshToken s =
    match Client.readCachedAccessToken s with
    | Client.Ret (Some token) s0 => Client.refresh_if_stale (Client.installed token s0)
    | Client.Ret None s0 => Client.refresh_if_stale s0
    | Client.Panic => Client.Panic
    end /\
  (forall cached s0,
     Client.readCachedAccessToken s = Client.Ret cached s0 ->
     Client.self s0 = Client.self s) /\
  (forall st tokenBytes err w,
     Client.storage (Client.self s) = Some st ->
     storage.ReadAuthnToken st (Client.world s) = ((tokenBytes, err), w) ->
     Client.readCachedAccessToken s =
       Client.Ret
         match err, authn.NewToken tokenBytes with
         | None, inl parsed => Some (fst (authn.FromJSON parsed (authn.Raw parsed)))
         | _, _ => None
         end
         (Client.logged Client.call_ReadAuthnToken w s)).
Proof.
  intros Hty. split; [|split].
  - rewrite (RefreshToken_oidc s Hty).
    destruct (Client.readCachedAccessToken s) as [[token|] s0|]; reflexivity.
  - intros cached s0 Hr. apply (readCachedAccessToken_state s cached s0 Hr).
  - intros st tokenBytes err w Hst Hread.
    rewrite (readCachedAccessToken_run s st Hst), Hread.
    destruct err as [e|]; [reflexivity|].
    destruct (authn.NewToken tokenBytes); reflexivity.
Qed.

(** ** Authenticating an OIDC client *)

(** C5, as the code has it.  With [AuthnType] oidc: a client without an
    authenticator is refused before the store is looked at; a client with
    an authenticator and a store reads the cached token and returns its raw
    bytes when it parses and should not refresh, and the login-again error
    with no bytes otherwise, the only call made being the read of the
    store.  Where a token keeps the bytes it was built from, the bytes
    returned are the bytes read. *)
Theorem InternalAuthenticate_oidc s :
  Client.AuthnType (Client.self s) = "oidc" ->
  (Client.authenticator (Client.self s) = None ->
     Client.InternalAuthenticate s =
       Client.Ret ([], Some "unable to authenticate using client without authenticator") s) /\
  (forall a st tokenBytes err w,
     Client.authenticator (Client.self s) = Some a ->
     Client.storage (Client.self s) = Some st ->
     storage.ReadAuthnToken st (Client.world s) = ((tokenBytes, err), w) ->
     Client.InternalAuthenticate s =
       let s0 := Client.logged Client.call_ReadAuthnToken w s in
       let login_again : bytes * option error :=
         ([], Some "No valid OIDC token found. Please login again.") in
       match err, authn.NewToken tokenBytes with
       | None, inl parsed =>
           let token := fst (authn.FromJSON parsed (authn.Raw parsed)) in
           if authn.ShouldRefresh token w then Client.Ret login_again s0
           else Client.Ret (authn.Raw token, None) s0
       | _, _ => Client.Ret login_again s0
       end) /\
  (forall a st tokenBytes w parsed,
     Client.authenticator (Client.self s) = Some a ->
     Client.storage (Client.self s) = Some st ->
     storage.ReadAuthnToken st (Client.world s) = ((tokenBytes, None), w) ->
     authn.NewToken tokenBytes = inl parsed ->
     authn.Raw (fst (authn.FromJSON parsed (authn.Raw parsed))) = tokenBytes ->
     authn.ShouldRefresh (fst (authn.FromJSON parsed (authn.Raw parsed))) w = false ->
     Client.InternalAuthenticate s =
       Client.Ret (tokenBytes, None) (Client.logged Client.call_ReadAuthnToken w s)).
Proof.
  intros Hty. apply String.eqb_eq in Hty.
  assert (Hrun : forall a st tokenBytes err w,
     Client.authenticator (Client.self s) = Some a ->
     Client.storage (Client.self s) = Some st ->
     storage.ReadAuthnToken st (Client.world s) = ((tokenBytes, err), w) ->
     Client.InternalAuthenticate s =
       let s0 := Client.logged Client.call_ReadAuthnToken w s in
       let login_again : bytes * option error :=
         ([], Some "No valid OIDC token found. Please login again.") in
       match err, authn.NewToken tokenBytes with
       | None, inl parsed =>
           let token := fst (authn.FromJSON parsed (authn.Raw parsed)) in
           if authn.ShouldRefresh token w then Client.Ret login_again s0
           else Client.Ret (authn.Raw token, None) s0
       | _, _ => Client.Ret login_again s0
       end).
  { intros a st tokenBytes err w Ha Hst Hread.
    unfold Client.InternalAuthenticate. run. rewrite Ha, Hty.
    fold (Client.bind (A:=option authn.AuthnToken) (B:=bytes * option error)).
    unfold Client.bind. rewrite (readCachedAccessToken_run s st Hst), Hread.
    destruct err as [e|]; [reflexivity|].
    destruct (authn.NewToken tokenBytes) as [parsed|e]; [|reflexivity].
    cbn [Client.logged Client.world].
    destruct (authn.ShouldRefresh _ w); reflexivity. }
  split; [|split].
  - intros Ha. unfold Client.InternalAuthenticate. run. rewrite Ha. reflexivity.
  - exact Hrun.
  - intros a st tokenBytes w parsed Ha Hst Hread Hparse Hraw Hfresh.
    rewrite (Hrun a st tokenBytes None w Ha Hst Hread), Hparse.
    cbv zeta. rewrite Hfresh, Hraw. reflexivity.
Qed.

(** With [AuthnType] oidc and no store, the read of the cached token is a
    call on a nil interface. *)
Lemma RefreshToken_oidc_nil_storage s :
  Client.AuthnType (Client.self s) = "oidc" ->
  Client.storage (Client.self s) = None ->
  Client.RefreshToken s = Client.Panic.
Proof.
  intros Hty Hst.
  rewrite (RefreshToken_oidc s Hty), (readCachedAccessToken_nil_storage s Hst).
  reflexivity.
Qed.

End ClientFacts.

(** ** The methods at work on the test doubles *)

Lemma Model_Raw_FromJSON (issuedAtOf : bytes -> option Z) (data : bytes)
    (parsed : authn.Model.Token) :
  authn.Model.NewToken issuedAtOf data = inl parsed ->
  authn.Model.Raw (fst (authn.Model.FromJSON issuedAtOf parsed (authn.Model.Raw parsed)))
    = data.
Proof.
  unfold authn.Model.NewToken, authn.Model.FromJSON, authn.Model.Raw.
  destruct (issuedAtOf data) as [T|] eqn:HT; [|discriminate].
  intros [= <-]. cbn. unfold authn.Model.NewToken. rewrite HT. reflexivity.
Qed.

(** C1, as stated, fails: the first refresh of a client with valid
    credentials succeeds and installs the new token, yet the only call made
    is the one to the authenticator, and the (working) store still holds no
    token afterwards. *)
Lemma refreshToken_leaves_store_empty :
  Sim.storeBroken (Client.world Sim.first_use) = false /\
  exists s',
    Client.refreshToken Sim.first_use = Client.Ret None s' /\
    Client.authToken (Client.self s') = Some (Sim.token "100" 100) /\
    Client.calls s' = [Client.call_Authenticator_RefreshToken] /\
    Sim.cachedToken (Client.world s') = None.
Proof.
  split; [reflexivity|]. eexists. split; [vm_compute; reflexivity|].
  repeat split.
Qed.

(** C2, as stated, fails for [Login]: the server answers the login with the
    API key, the write to the broken store fails, and [Login] returns the
    key together with the store's error. *)
Lemma Login_returns_store_error :
  fst (Client.httpClient_Do (Client.self Sim.login_with_broken_store)
         (Sim.request "/authn/login") (Client.world Sim.login_with_broken_store))
    = inl {| Sim.StatusCode := 200; Sim.body := Sim.payload "api-key" |} /\
  Client.returned (Client.Login "alice" "secret" Sim.login_with_broken_store)
    = Some (Sim.payload "api-key", Some Sim.StoreUnavailable).
Proof. split; vm_compute; reflexivity. Qed.

Lemma store_failures_witness :
  Client.readCachedAccessToken Sim.login_with_broken_store
    = Client.Ret None
        (Client.logged Client.call_ReadAuthnToken
           (Client.world Sim.login_with_broken_store) Sim.login_with_broken_store) /\
  Client.returned
    (Client.OidcAuthenticate "code" "nonce" "verifier" Sim.oidc_exchange_with_broken_store)
    = Some (Sim.payload "1100", None) /\
  Client.returned (Client.Login "alice" "secret" Sim.login_with_broken_store)
    = Some (Sim.payload "api-key", Some Sim.StoreUnavailable) /\
  Client.returned (Client.PurgeCredentials Sim.login_with_broken_store)
    = Some (Some Sim.StoreUnavailable).
Proof.
  pose proof (store_failures Sim.login_with_broken_store Sim.memoryStore eq_refl)
    as (Hread & _ & Hlogin & Hpurge).
  pose proof (store_failures Sim.oidc_exchange_with_broken_store Sim.memoryStore eq_refl)
    as (_ & Hoidc & _).
  split; [|split; [|split]].
  - apply (Hread [] (Some Sim.StoreUnavailable)); [reflexivity | left; discriminate].
  - apply (Hoidc "code" "nonce" "verifier" (Sim.request "/authn-oidc/authenticate")
             {| Sim.StatusCode := 200; Sim.body := Sim.payload "1100" |}
             (Client.world Sim.oidc_exchange_with_broken_store)
             (Sim.payload "1100")
             (Client.world Sim.oidc_exchange_with_broken_store)); reflexivity.
  - apply (Hlogin "alice" "secret" (Sim.request "/authn/login")
             {| Sim.StatusCode := 200; Sim.body := Sim.payload "api-key" |}
             (Client.world Sim.login_with_broken_store)
             (Sim.payload "api-key")
             (Client.world Sim.login_with_broken_store)); reflexivity.
  - exact Hpurge.
Defined.

(** C3, as stated, fails for [RefreshToken] on an OIDC client: the refresh
    attempt is rejected and its error returned, but the token held before
    the call has been replaced by the (older) token cached in the store. *)
Lemma RefreshToken_failure_replaces_token :
  Client.authToken (Client.self Sim.oidc_stale_cache) = Some (Sim.token "1000" 1000) /\
  exists s',
    Client.RefreshToken Sim.oidc_stale_cache = Client.Ret (Some "401 Invalid") s' /\
    Client.authToken (Client.self s') = Some (Sim.token "0" 0) /\
    Client.authToken (Client.self s') <> Client.authToken (Client.self Sim.oidc_stale_cache).
Proof.
  split; [reflexivity|]. eexists. split; [vm_compute; reflexivity|].
  split; [reflexivity | discriminate].
Qed.

Lemma failed_refresh_is_returned_witness :
  exists s',
    Client.RefreshToken Sim.oidc_stale_cache = Client.Ret (Some "401 Invalid") s' /\
    Client.authToken (Client.self s') = Some (Sim.token "0" 0) /\
    Client.refresh_attempts (Client.calls s') = 1.
Proof.
  apply (proj2 (proj2 (failed_refresh_is_returned Sim.oidc_stale_cache
                         (Sim.apiKeyAuthenticator "1050" Sim.invalidPair)
                         "401 Invalid" (Client.world Sim.oidc_stale_cache) eq_refl))
           (Some (Sim.token "0" 0))
           (Client.logged Client.call_ReadAuthnToken
              (Client.world Sim.oidc_stale_cache) Sim.oidc_stale_cache));
    try reflexivity.
  exists []. left. reflexivity.
Defined.

Lemma RefreshToken_oidc_hydrates_witness :
  Client.RefreshToken Sim.oidc_cached =
    Client.Ret None
      (Client.installed (Sim.token "1000" 1000)
         (Client.logged Client.call_ReadAuthnToken
            (Client.world Sim.oidc_cached) Sim.oidc_cached)).
Proof.
  destruct (RefreshToken_oidc_hydrates Sim.oidc_cached eq_refl) as (Hrun & _ & Hread).
  rewrite Hrun.
  rewrite (Hread Sim.memoryStore (Sim.payload "1000") None
             (Client.world Sim.oidc_cached) eq_refl eq_refl).
  reflexivity.
Defined.

(** An OIDC client that was given no store: [RefreshToken] panics on the
    read of the cached token, where [PurgeCredentials] on the same client
    tests for the missing store and returns nil. *)
Example RefreshToken_oidc_without_store :
  Client.AuthnType (Client.self Sim.oidc_no_store) = "oidc" /\
  Client.storage (Client.self Sim.oidc_no_store) = None /\
  Client.RefreshToken Sim.oidc_no_store = Client.Panic /\
  Client.PurgeCredentials Sim.oidc_no_store = Client.Ret None Sim.oidc_no_store.
Proof. repeat split. Qed.

(** C5, as stated, fails for an OIDC client without authenticator: the
    store holds a token that parses and should not refresh, yet
    [InternalAuthenticate] returns no bytes and the error about the missing
    authenticator. *)
Lemma InternalAuthenticate_refuses_without_authenticator :
  Client.AuthnType (Client.self Sim.oidc_cached_no_authenticator) = "oidc" /\
  fst (storage.ReadAuthnToken Sim.memoryStore
         (Client.world Sim.oidc_cached_no_authenticator))
    = (Sim.payload "1000", None) /\
  authn.NewToken (Sim.payload "1000") = inl (Sim.token "1000" 1000) /\
  authn.ShouldRefresh (Sim.token "1000" 1000)
    (Client.world Sim.oidc_cached_no_authenticator) = false /\
  Client.returned (Client.InternalAuthenticate Sim.oidc_cached_no_authenticator)
    = Some ([], Some "unable to authenticate using client without authenticator").
Proof. repeat split. Qed.

Lemma InternalAuthenticate_oidc_witness :
  Client.InternalAuthenticate Sim.oidc_cached =
    Client.Ret (Sim.payload "1000", None)
      (Client.logged Client.call_ReadAuthnToken
         (Client.world Sim.oidc_cached) Sim.oidc_cached).
Proof.
  apply (proj2 (proj2 (InternalAuthenticate_oidc Sim.oidc_cached eq_refl))
           (Sim.apiKeyAuthenticator "1050" Sim.validPair) Sim.memoryStore
           (Sim.payload "1000") (Client.world Sim.oidc_cached) (Sim.token "1000" 1000));
    reflexivity.
Defined.

Lemma ForceRefreshToken_one_refresh_witness :
  Client.NeedsTokenRefresh Sim.fresh_session = Client.Ret false Sim.fresh_session /\
  exists err s',
    Client.ForceRefreshToken Sim.fresh_session = Client.Ret err s' /\
    Client.calls s' = [Client.call_Authenticator_RefreshToken] /\
    Client.world s' = Client.world Sim.fresh_session /\
    (forall tokenBytes token,
       (Sim.payload "1050", @None error) = (tokenBytes, None) ->
       authn.NewToken tokenBytes = inl token ->
       err = None /\
       Client.authToken (Client.self s') = Some (fst (authn.FromJSON token tokenBytes))).
Proof.
  split; [reflexivity|].
  apply (ForceRefreshToken_one_refresh Sim.fresh_session
           (Sim.apiKeyAuthenticator "1050" Sim.validPair)).
  reflexivity.
Defined.

Lemma createAuthRequest_sets_one_header_witness :
  exists token stamped,
    Client.authToken (Client.self Sim.fresh_session) = Some token /\
    Client.createAuthRequest (Sim.request "/secrets") Sim.fresh_session
      = Client.Ret (None, stamped) Sim.fresh_session /\
    http.Header stamped !! "Authorization" =
      Some ["Token token=" +:+ dquote +:+
            base64.EncodeToString (authn.Raw token) +:+ dquote] /\
    (forall key : string, key <> "Authorization" ->
       http.Header stamped !! key = http.Header (Sim.request "/secrets") !! key) /\
    (forall s'',
       Client.RefreshToken Sim.fresh_session = Client.Ret None s'' ->
       Client.authToken (Client.self s'') = Some token ->
       Client.createAuthRequest stamped Sim.fresh_session = Client.Ret (None, stamped) s'').
Proof.
  apply (createAuthRequest_sets_one_header Sim.fresh_session Sim.fresh_session
           (Sim.request "/secrets")).
  reflexivity.
Defined.

Example base64_data :
  base64.EncodeToString (list_byte_of_string "data") = "ZGF0YQ==".
Proof. reflexivity. Qed.

Example base64_remainders :
  base64.EncodeToString (list_byte_of_string "fooba") = "Zm9vYmE=" /\
  base64.EncodeToString (list_byte_of_string "foobar") = "Zm9vYmFy".
Proof. split; reflexivity. Qed.

Example stamped_fresh_session :
  match Client.createAuthRequest (Sim.request "/secrets") Sim.fresh_session with
  | Client.Ret (err, req) _ =>
      err = None /\
      http.Header req !! "Authorization"
        = Some ["Token token=" +:+ dquote +:+ "MTAwMA==" +:+ dquote]
  | Client.Panic => False
  end.
Proof. vm_compute. split; reflexivity. Qed.

Example APIKeyAuthenticator_test :
  fst (authn.RefreshToken (Sim.apiKeyAuthenticator "data" Sim.validPair)
         (Sim.world 0 None false "")) = (Sim.payload "data", None) /\
  fst (authn.RefreshToken (Sim.apiKeyAuthenticator "data" Sim.invalidPair)
         (Sim.world 0 None false "")) = ([], Some "401 Invalid") /\
  authn.NeedsTokenRefresh (Sim.apiKeyAuthenticator "data" Sim.validPair)
    (Sim.world 0 None false "") = false.
Proof. repeat split. Qed.

Example validate_examples :
  Config.validate (Config.mk "cucumber" "" "https://conjur" "" "") = None /\
  Config.validate (Config.mk "" "key" "https://conjur" "admin" "/tmp/token")
    = Some "Account is required." /\
  Config.validate (Config.mk "cucumber" "key" "" "admin" "")
    = Some "ApplianceURL is required." /\
  Config.validate (Config.mk "" "" "" "" "")
    = Some ("Account is required." +:+ newline +:+ "ApplianceURL is required.").
Proof. repeat split. Qed.

Example ShouldRefresh_examples :
  authn.Model.ShouldRefresh Sim.lifetime Sim.margin (Sim.token "0" 0) 359 = false /\
  authn.Model.ShouldRefresh Sim.lifetime Sim.margin (Sim.token "0" 0) 360 = true /\
  authn.Model.ShouldRefresh Sim.lifetime Sim.margin (Sim.token "0" 0) 480 = true.
Proof. repeat split. Qed.

(** * Further properties *)

(** ** Escaping *)

Lemma QueryEscape_cons (c : ascii) (s : string) :
  url.QueryEscape (String c s) = url.QueryEscape (String c "") +:+ url.QueryEscape s.
Proof.
  cbn [url.QueryEscape].
  destruct (Ascii.eqb c " "); [reflexivity|].
  destruct (url.shouldEscape c); reflexivity.
Qed.

(** A property of characters that holds of all 256 of them holds of any. *)
Lemma ascii_all (P : ascii -> bool) :
  forallb P (map ascii_of_nat (seq 0 256)) = true -> forall c, P c = true.
Proof.
  intros Hall c. rewrite forallb_forall in Hall. apply Hall.
  rewrite <- (ascii_nat_embedding c). apply in_map. apply in_seq.
  pose proof (nat_ascii_bounded c). lia.
Qed.

Lemma QueryEscape_char_alphabet (c : ascii) :
  forallb escaped_char (list_ascii_of_string (url.QueryEscape (String c ""))) = true.
Proof. revert c. apply ascii_all. vm_compute. reflexivity. Qed.

Lemma list_ascii_of_string_app (s t : string) :
  list_ascii_of_string (s +:+ t) = (list_ascii_of_string s ++ list_ascii_of_string t)%list.
Proof. induction s as [|c s IH]; simpl; [reflexivity | f_equal; exact IH]. Qed.

Lemma QueryEscape_alphabet (s : string) :
  forallb escaped_char (list_ascii_of_string (url.QueryEscape s)) = true.
Proof.
  induction s as [|c s IH]; [reflexivity|].
  rewrite QueryEscape_cons, list_ascii_of_string_app, forallb_app.
  rewrite QueryEscape_char_alphabet, IH. reflexivity.
Qed.

(** The three shapes of one escaped character: a plus sign for the space,
    the character itself if it is neither a percent nor a plus sign, or a
    percent sign and the two hex digits of the character. *)
Lemma QueryEscape_char_shape (c : ascii) :
  match url.QueryEscape (String c "") with
  | String x EmptyString =>
      (Ascii.eqb x "+" && Ascii.eqb c " ") ||
      (Ascii.eqb x c && negb (Ascii.eqb c "%") && negb (Ascii.eqb c "+"))
  | String x (String h (String l EmptyString)) =>
      Ascii.eqb x "%" && (unescape.ishex h && unescape.ishex l) &&
      Ascii.eqb
        (ascii_of_N (N.lor (N.shiftl (unescape.unhex h) 4) (unescape.unhex l))) c
  | _ => false
  end = true.
Proof. revert c. apply ascii_all. vm_compute. reflexivity. Qed.

Lemma QueryUnescape_QueryEscape_cons (c : ascii) (s : string) :
  unescape.QueryUnescape (url.QueryEscape (String c s)) =
  unescape.cons_char c (unescape.QueryUnescape (url.QueryEscape s)).
Proof.
  rewrite QueryEscape_cons. generalize (QueryEscape_char_shape c).
  destruct (url.QueryEscape (String c "")) as [|x [|h [|l [|y r]]]];
    try discriminate; intros H.
  - apply orb_true_iff in H. destruct H as [H|H].
    + apply andb_true_iff in H. destruct H as [Hx Hc].
      apply Ascii.eqb_eq in Hx, Hc. subst. reflexivity.
    + apply andb_true_iff in H. destruct H as [H Hplus].
      apply andb_true_iff in H. destruct H as [Hx Hpct].
      apply Ascii.eqb_eq in Hx. subst x.
      apply negb_true_iff in Hplus, Hpct.
      simpl. rewrite Hpct, Hplus. reflexivity.
  - apply andb_true_iff in H. destruct H as [H Hc].
    apply andb_true_iff in H. destruct H as [Hx Hhex].
    apply Ascii.eqb_eq in Hx, Hc. subst x.
    simpl. rewrite Hhex, Hc. reflexivity.
Qed.

Lemma QueryUnescape_QueryEscape (s : string) :
  unescape.QueryUnescape (url.QueryEscape s) = Some s.
Proof.
  induction s as [|c s IH]; [reflexivity|].
  rewrite QueryUnescape_QueryEscape_cons, IH. reflexivity.
Qed.

(** What [QueryEscape] produces, [QueryUnescape] turns back into the
    original text, so distinct texts are escaped differently; and the
    escaped text consists of letters, digits and the characters
    [- _ . ~ + %] alone. *)
Theorem QueryEscape_round_trip (s t : string) :
  unescape.QueryUnescape (url.QueryEscape s) = Some s /\
  (url.QueryEscape s = url.QueryEscape t -> s = t) /\
  (forall c, In c (list_ascii_of_string (url.QueryEscape s)) ->
     escaped_char c = true /\ c <> "/"%char /\ c <> "?"%char /\ c <> "#"%char /\
     c <> ":"%char /\ c <> " "%char).
Proof.
  split; [apply QueryUnescape_QueryEscape|]. split.
  - intros Heq.
    pose proof (QueryUnescape_QueryEscape s) as Hs.
    pose proof (QueryUnescape_QueryEscape t) as Ht.
    rewrite Heq in Hs. congruence.
  - intros c Hin.
    pose proof (QueryEscape_alphabet s) as Hall.
    rewrite forallb_forall in Hall. specialize (Hall c Hin).
    split; [exact Hall|].
    repeat split; intros ->; vm_compute in Hall; discriminate.
Qed.

(** ** Strings *)

Lemma append_cons (x : ascii) (a b : string) :
  String x a +:+ b = String x (a +:+ b).
Proof. reflexivity. Qed.

Lemma append_nil_l (a : string) : "" +:+ a = a.
Proof. reflexivity. Qed.

Lemma append_nil_r (a : string) : a +:+ "" = a.
Proof.
  induction a as [|x a IH]; [reflexivity|]. rewrite append_cons, IH. reflexivity.
Qed.

Lemma append_length (a b : string) :
  String.length (a +:+ b) = String.length a + String.length b.
Proof.
  induction a as [|x a IH]; [reflexivity|].
  rewrite append_cons. cbn [String.length]. rewrite IH. reflexivity.
Qed.

Lemma append_cancel_l (a b c : string) : a +:+ b = a +:+ c -> b = c.
Proof.
  induction a as [|x a IH]; [intros H; exact H|].
  rewrite !append_cons. intros [= H]. exact (IH H).
Qed.

Lemma append_cancel_r (a b c : string) : a +:+ c = b +:+ c -> a = b.
Proof.
  revert b. induction a as [|x a IH]; intros [|y b] H.
  - reflexivity.
  - exfalso. apply (f_equal String.length) in H.
    rewrite !append_length in H. cbn [String.length] in H. lia.
  - exfalso. apply (f_equal String.length) in H.
    rewrite !append_length in H. cbn [String.length] in H. lia.
  - rewrite !append_cons in H. injection H as -> H. f_equal. apply IH. exact H.
Qed.

Lemma prefix_drop (sep s : string) :
  String.prefix sep s = true -> s = sep +:+ string_drop (String.length sep) s.
Proof.
  revert s. induction sep as [|x sep IH]; intros s H; [reflexivity|].
  destruct s as [|y s]; cbn [String.prefix] in H; [discriminate|].
  destruct (ascii_dec x y) as [->|]; [|discriminate].
  rewrite append_cons. cbn [String.length string_drop]. f_equal. apply IH. exact H.
Qed.

Lemma strings_Cut_Some (sep s before after : string) :
  strings_Cut sep s = Some (before, after) -> s = before +:+ sep +:+ after.
Proof.
  revert before. induction s as [|c s IH]; intros before; cbn [strings_Cut].
  - destruct (String.prefix sep "") eqn:Hp; [|discriminate].
    intros [= <- <-]. apply (prefix_drop sep "" Hp).
  - destruct (String.prefix sep (String c s)) eqn:Hp.
    + intros [= <- <-]. apply (prefix_drop sep (String c s) Hp).
    + destruct (strings_Cut sep s) as [[b a]|]; [|discriminate].
      intros [= <- <-]. rewrite append_cons. f_equal. apply IH. reflexivity.
Qed.

Lemma genSplit_loop_Join (sep : string) (k : nat) (s : string) :
  strings_Join (genSplit_loop sep k s) sep = s /\
  1 <= List.length (genSplit_loop sep k s) <= S k.
Proof.
  revert s. induction k as [|k IH]; intros s; simpl.
  - split; [reflexivity | lia].
  - destruct (strings_Cut sep s) as [[before after]|] eqn:Hc; simpl.
    + destruct (IH after) as [Hj Hl].
      split; [|lia].
      destruct (genSplit_loop sep k after) as [|x rest] eqn:Hg; [simpl in Hl; lia|].
      rewrite Hj. symmetry. apply strings_Cut_Some. exact Hc.
    + split; [reflexivity | lia].
Qed.

(** Joining what [SplitN] returned with the separator gives the string
    back, and [SplitN] with a count [n] above zero returns between one and
    [n] pieces. *)
Theorem SplitN_Join (s sep : string) (n : nat) :
  0 < n ->
  strings_Join (strings_SplitN s sep n) sep = s /\
  1 <= List.length (strings_SplitN s sep n) <= n.
Proof.
  intros Hn. destruct n as [|k]; [lia|]. apply genSplit_loop_Join.
Qed.

Lemma SplitN_Join_witness :
  strings_Join (strings_SplitN "cucumber:variable:db:password" ":" 3) ":"
    = "cucumber:variable:db:password" /\
  1 <= List.length (strings_SplitN "cucumber:variable:db:password" ":" 3) <= 3.
Proof. apply (SplitN_Join "cucumber:variable:db:password" ":" 3). lia. Defined.

Lemma prefix_colon (s : string) :
  String.prefix ":" s = true <-> exists rest, s = String ":" rest.
Proof.
  destruct s as [|c s]; cbn [String.prefix].
  - split; [discriminate | intros [rest H]; discriminate].
  - destruct (ascii_dec ":" c) as [<-|Hne]; cbv beta iota.
    + split; [eauto|]. intros _. destruct s; reflexivity.
    + split; [discriminate|]. intros [rest [= -> _]]. congruence.
Qed.

Lemma prefix_colon_false (c : ascii) (s : string) :
  c <> ":"%char -> String.prefix ":" (String c s) = false.
Proof.
  intros Hne. destruct (String.prefix ":" (String c s)) eqn:Hp; [|reflexivity].
  apply prefix_colon in Hp. destruct Hp as [rest [= -> _]]. congruence.
Qed.

Lemma strings_Cut_colon_app (a b : string) :
  ~ In ":"%char (list_ascii_of_string a) ->
  strings_Cut ":" (a +:+ ":" +:+ b) = Some (a, b).
Proof.
  induction a as [|c a IH]; intros Hno.
  - change ("" +:+ ":" +:+ b) with (String ":" b). cbn [strings_Cut].
    rewrite (proj2 (prefix_colon (String ":" b)) (ex_intro _ b eq_refl)).
    reflexivity.
  - assert (Hc : c <> ":"%char) by (intros ->; apply Hno; left; reflexivity).
    assert (Ha : ~ In ":"%char (list_ascii_of_string a))
      by (intros Hin; apply Hno; right; exact Hin).
    rewrite append_cons.
    cbn [strings_Cut]. rewrite (prefix_colon_false c _ Hc), (IH Ha). reflexivity.
Qed.

Lemma prefix_colon_true (s : string) : String.prefix ":" (String ":" s) = true.
Proof. apply prefix_colon. exists s. reflexivity. Qed.

Lemma strings_Cut_colon_None (s : string) :
  strings_Cut ":" s = None -> ~ In ":"%char (list_ascii_of_string s).
Proof.
  induction s as [|c s IH]; [intros _ []|].
  cbn [strings_Cut]. destruct (String.prefix ":" (String c s)) eqn:Hp; [discriminate|].
  destruct (strings_Cut ":" s) as [[b a]|]; [discriminate|].
  intros _ [-> | Hin].
  - rewrite prefix_colon_true in Hp. discriminate.
  - exact (IH eq_refl Hin).
Qed.

Lemma strings_Cut_colon_first (s before after : string) :
  strings_Cut ":" s = Some (before, after) ->
  ~ In ":"%char (list_ascii_of_string before).
Proof.
  revert before. induction s as [|c s IH]; intros before.
  - cbn. discriminate.
  - cbn [strings_Cut]. destruct (String.prefix ":" (String c s)) eqn:Hp.
    + intros [= <- _] [].
    + destruct (strings_Cut ":" s) as [[b a]|]; [|discriminate].
      intros [= <- <-] [-> | Hin].
      * rewrite prefix_colon_true in Hp. discriminate.
      * exact (IH b eq_refl Hin).
Qed.

Lemma count_colon_none (s : string) :
  ~ In ":"%char (list_ascii_of_string s) ->
  count_occ ascii_dec (list_ascii_of_string s) ":"%char = 0.
Proof. apply count_occ_not_In. Qed.

Lemma count_colon_cut (s before after : string) :
  strings_Cut ":" s = Some (before, after) ->
  count_occ ascii_dec (list_ascii_of_string s) ":"%char =
  S (count_occ ascii_dec (list_ascii_of_string after) ":"%char).
Proof.
  intros Hc. rewrite (strings_Cut_Some _ _ _ _ Hc) at 1.
  rewrite !list_ascii_of_string_app, !count_occ_app.
  rewrite (count_colon_none before (strings_Cut_colon_first _ _ _ Hc)).
  reflexivity.
Qed.

(** ** The router's URLs *)

(** X10.  For a full id of the form account, colon, kind, colon, identifier
    (neither account nor kind containing a colon), [variableURL] is the
    appliance URL followed by [/secrets/], the account, the kind and the
    escaped identifier; colons and slashes inside the identifier stay in
    that last, escaped segment. *)
Theorem variableURL_full_id (self : RouterV5.t) (account kind id : string) :
  ~ In ":"%char (list_ascii_of_string account) ->
  ~ In ":"%char (list_ascii_of_string kind) ->
  RouterV5.variableURL self (account +:+ ":" +:+ kind +:+ ":" +:+ id) =
    Done (Config.ApplianceURL (RouterV5.Config_ self) +:+ "/secrets/" +:+
          account +:+ "/" +:+ kind +:+ "/" +:+ url.QueryEscape id) /\
  unescape.QueryUnescape (url.QueryEscape id) = Some id.
Proof.
  intros Ha Hk. split; [|apply QueryUnescape_QueryEscape].
  unfold RouterV5.variableURL, strings_SplitN. cbn [genSplit_loop].
  rewrite (strings_Cut_colon_app account _ Ha), (strings_Cut_colon_app kind _ Hk).
  reflexivity.
Qed.

Lemma variableURL_full_id_witness :
  RouterV5.variableURL SimRouter.router "cucumber:variable:prod/db:password" =
    Done "https://conjur.example/secrets/cucumber/variable/prod%2Fdb%3Apassword" /\
  unescape.QueryUnescape (url.QueryEscape "prod/db:password") = Some "prod/db:password".
Proof.
  apply (variableURL_full_id SimRouter.router "cucumber" "variable" "prod/db:password");
    vm_compute; intuition discriminate.
Defined.

Lemma resourceUrl_panics_iff (self : RouterV5.t) (kind id : string) :
  RouterV5.resourceUrl self kind (strings_SplitN id ":" 3) = IndexOutOfRange <->
  count_occ ascii_dec (list_ascii_of_string id) ":"%char < 2.
Proof.
  unfold strings_SplitN. cbn [genSplit_loop].
  destruct (strings_Cut ":" id) as [[account rest]|] eqn:H1.
  - rewrite (count_colon_cut _ _ _ H1).
    destruct (strings_Cut ":" rest) as [[resource name]|] eqn:H2.
    + rewrite (count_colon_cut _ _ _ H2). cbn. split; [discriminate | lia].
    + rewrite (count_colon_none rest (strings_Cut_colon_None rest H2)).
      cbn. split; [lia | reflexivity].
  - rewrite (count_colon_none _ (strings_Cut_colon_None _ H1)).
    cbn. split; [lia | reflexivity].
Qed.

(** X11.  [variableURL] panics with an index out of range exactly when the id
    holds fewer than two colons. *)
Theorem variableURL_panics_iff (self : RouterV5.t) (variableId : string) :
  RouterV5.variableURL self variableId = IndexOutOfRange <->
  count_occ ascii_dec (list_ascii_of_string variableId) ":"%char < 2.
Proof. apply resourceUrl_panics_iff. Qed.

(** X12.  The three request builders that go through [makeFullId] panic exactly
    when the id it returns holds fewer than two colons; otherwise each
    hands [http.NewRequest] its own method and the resource URL, the two
    secret requests the same URL for the same variable id, and returns
    what [http.NewRequest] returns. *)
Theorem full_id_requests
    (http_NewRequest : string -> string -> bytes -> http.Request + error)
    (makeFullId : string -> string -> string -> string)
    (self : RouterV5.t) (id secretValue : string) (policy : bytes) :
  let account := Config.Account (RouterV5.Config_ self) in
  let short (fullId : string) :=
    count_occ ascii_dec (list_ascii_of_string fullId) ":"%char < 2 in
  (RouterV5.RetrieveSecretRequest http_NewRequest makeFullId self id = IndexOutOfRange <->
     short (makeFullId account "variable" id)) /\
  (RouterV5.AddSecretRequest http_NewRequest makeFullId self id secretValue
     = IndexOutOfRange <-> short (makeFullId account "variable" id)) /\
  (RouterV5.LoadPolicyRequest http_NewRequest makeFullId self id policy
     = IndexOutOfRange <-> short (makeFullId account "policy" id)) /\
  (forall u, RouterV5.variableURL self (makeFullId account "variable" id) = Done u ->
     RouterV5.RetrieveSecretRequest http_NewRequest makeFullId self id
       = Done (http_NewRequest "GET" u []) /\
     RouterV5.AddSecretRequest http_NewRequest makeFullId self id secretValue
       = Done (http_NewRequest "POST" u (list_byte_of_string secretValue))) /\
  (forall u,
     RouterV5.resourceUrl self "policies"
       (strings_SplitN (makeFullId account "policy" id) ":" 3) = Done u ->
     RouterV5.LoadPolicyRequest http_NewRequest makeFullId self id policy
       = Done (http_NewRequest "PUT" u policy)).
Proof.
  cbv zeta.
  unfold RouterV5.RetrieveSecretRequest, RouterV5.AddSecretRequest,
    RouterV5.LoadPolicyRequest, RouterV5.variableURL.
  split; [|split; [|split; [|split]]].
  - rewrite <- (resourceUrl_panics_iff self "secrets").
    destruct (RouterV5.resourceUrl self "secrets" _); split; congruence.
  - rewrite <- (resourceUrl_panics_iff self "secrets").
    destruct (RouterV5.resourceUrl self "secrets" _); split; congruence.
  - rewrite <- (resourceUrl_panics_iff self "policies").
    destruct (RouterV5.resourceUrl self "policies" _); split; congruence.
  - intros u ->. split; reflexivity.
  - intros u ->. reflexivity.
Qed.

(** X9.  In the authenticate URL the login is one escaped path segment, from
    which it can be recovered and which holds no slash, question mark or
    hash; two login pairs get the same URL exactly when their logins are
    equal, the API key playing no part in the URL. *)
Theorem authenticateUrl_login_segment (self : RouterV5.t) (lp lp' : authn.LoginPair) :
  (exists segment,
     RouterV5.authenticateUrl self lp =
       Config.ApplianceURL (RouterV5.Config_ self) +:+ "/authn/" +:+
       Config.Account (RouterV5.Config_ self) +:+ "/" +:+ segment +:+ "/authenticate" /\
     unescape.QueryUnescape segment = Some (authn.Login lp) /\
     (forall c, In c (list_ascii_of_string segment) ->
        c <> "/"%char /\ c <> "?"%char /\ c <> "#"%char)) /\
  (RouterV5.authenticateUrl self lp = RouterV5.authenticateUrl self lp' <->
   authn.Login lp = authn.Login lp').
Proof.
  split.
  - exists (url.QueryEscape (authn.Login lp)). split; [reflexivity|].
    destruct (QueryEscape_round_trip (authn.Login lp) "") as (Hrt & _ & Hchars).
    split; [exact Hrt|]. intros c Hin. destruct (Hchars c Hin) as (_ & ? & ? & ? & _).
    auto.
  - unfold RouterV5.authenticateUrl. split.
    + intros H. do 4 apply append_cancel_l in H. apply append_cancel_r in H.
      destruct (QueryEscape_round_trip (authn.Login lp) (authn.Login lp')) as (_ & Hinj & _).
      exact (Hinj H).
    + intros ->. reflexivity.
Qed.

(** ** Errors of the service *)

Lemma append_empty (a b : string) : a +:+ b = "" -> a = "" /\ b = "".
Proof. destruct a; simpl; [auto | discriminate]. Qed.

Lemma prefix_append (a b : string) : String.prefix a (a +:+ b) = true.
Proof.
  induction a as [|c a IH]; simpl; [destruct b; reflexivity|].
  destruct (ascii_dec c c); [exact IH | congruence].
Qed.

Lemma ConjurError_Error_cases {Any : Type} (cerr : ConjurError.t Any) :
  ConjurError.Error cerr =
    (if String.eqb (ConjurError.Message cerr) "" then ""
     else ConjurError.Message cerr +:+ ". ") +:+
    match ConjurError.Details cerr with
    | Some details =>
        if String.eqb (ConjurErrorDetails.Message details) "" then ""
        else ConjurErrorDetails.Message details +:+ "."
    | None => ""
    end.
Proof.
  unfold ConjurError.Error.
  destruct (String.eqb (ConjurError.Message cerr) "");
    destruct (ConjurError.Details cerr) as [details|];
    try destruct (String.eqb (ConjurErrorDetails.Message details) "");
    cbn [negb]; try reflexivity; symmetry; apply append_nil_r.
Qed.

Lemma ConjurError_Error_empty_message {Any : Type} (cerr : ConjurError.t Any) :
  ConjurError.Error cerr = "" -> ConjurError.Message cerr = "".
Proof.
  rewrite ConjurError_Error_cases.
  destruct (String.eqb_spec (ConjurError.Message cerr) "") as [Hm|Hm]; [intros _; exact Hm|].
  intros H. apply append_empty in H. destruct H as [H _].
  apply append_empty in H. destruct H as [_ H]. discriminate.
Qed.

(** X13.  [Error()] is the empty text exactly when the error has no message and
    no detail message; and if there is a message, [Error()] starts with it,
    followed by a period and a space. *)
Theorem ConjurError_Error_empty_iff {Any : Type} (cerr : ConjurError.t Any) :
  (ConjurError.Error cerr = "" <->
     ConjurError.Message cerr = "" /\
     (forall details, ConjurError.Details cerr = Some details ->
                      ConjurErrorDetails.Message details = "")) /\
  (ConjurError.Message cerr <> "" ->
     String.prefix (ConjurError.Message cerr +:+ ". ") (ConjurError.Error cerr) = true).
Proof.
  rewrite ConjurError_Error_cases.
  destruct (String.eqb_spec (ConjurError.Message cerr) "") as [Hm|Hm].
  - split; [|congruence].
    rewrite append_nil_l.
    destruct (ConjurError.Details cerr) as [details|].
    + destruct (String.eqb_spec (ConjurErrorDetails.Message details) "") as [Hd|Hd].
      * split; [intros _; split; [exact Hm | intros d [= <-]; exact Hd] | reflexivity].
      * split.
        -- intros H. apply append_empty in H. destruct H as [_ H]. discriminate.
        -- intros [_ H]. specialize (H details eq_refl). congruence.
    + split; [intros _; split; [exact Hm | discriminate] | reflexivity].
  - split; [|intros _; apply prefix_append].
    split; [|intros [H _]; congruence].
    intros H. apply append_empty in H. destruct H as [H _].
    apply append_empty in H. destruct H as [_ H]. discriminate.
Qed.

(** X14.  [NewConjurError] returns the error of the read if reading the body
    failed; otherwise it returns a [ConjurError] whose message is empty only
    if the status line of the response is empty, and when the body does not
    decode, the message is the trimmed body, or the status line if that is
    empty. *)
Theorem NewConjurError_message {Any : Type}
    (json_Unmarshal : bytes -> ConjurError.t Any -> ConjurError.t Any * option error)
    (strings_TrimSpace : string -> string) (resp : ConjurError.Response) :
  match ConjurError.NewConjurError Any json_Unmarshal strings_TrimSpace resp with
  | ConjurError.ReadFailed e => snd (ConjurError.Body_ReadAll resp) = Some e
  | ConjurError.Conjur cerr =>
      snd (ConjurError.Body_ReadAll resp) = None /\
      (ConjurError.Message cerr = "" -> ConjurError.Status resp = "") /\
      (ConjurError.Status resp <> "" -> ConjurError.Error cerr <> "") /\
      (forall decoded e,
         json_Unmarshal (fst (ConjurError.Body_ReadAll resp))
           (ConjurError.mk Any (ConjurError.StatusCode resp) "" None) = (decoded, Some e) ->
         let trimmed :=
           strings_TrimSpace (string_of_bytes (fst (ConjurError.Body_ReadAll resp))) in
         ConjurError.Message cerr =
           (if String.eqb trimmed "" then ConjurError.Status resp else trimmed))
  end.
Proof.
  unfold ConjurError.NewConjurError.
  destruct (ConjurError.Body_ReadAll resp) as [body [e|]]; [reflexivity|].
  cbn [fst snd].
  destruct (json_Unmarshal body _) as [decoded err] eqn:Hu.
  assert (Hmsg : forall c1 : ConjurError.t Any,
            ConjurError.Message
              (if String.eqb (ConjurError.Message c1) ""
               then ConjurError.with_Message Any c1 (ConjurError.Status resp)
               else c1) = "" -> ConjurError.Status resp = "").
  { intros c1. destruct (String.eqb_spec (ConjurError.Message c1) "") as [H|H];
      [intros H'; exact H' | intros H'; congruence]. }
  split; [reflexivity|]. split; [apply Hmsg|]. split.
  - intros Hst Herr.
    apply ConjurError_Error_empty_message in Herr.
    exact (Hst (Hmsg _ Herr)).
  - intros decoded' e Heq. injection Heq as Hd He. subst decoded' err.
    cbn [ConjurError.with_Message ConjurError.Message].
    destruct (String.eqb (strings_TrimSpace (string_of_bytes body)) ""); reflexivity.
Qed.

(** ** The client, further *)

Section ClientMoreFacts.

Context {World : Type} `{!authn.API World} `{!response.API World}.

Implicit Types (s : Client.State World) (a : authn.Authenticator World)
  (st : storage.Provider World).

Ltac run :=
  unfold Client.bind, Client.get, Client.ret, Client.panic, Client.invoke,
    Client.observe, Client.set_authToken; cbn [Client.self Client.world Client.calls].

Ltac nothing_called r s :=
  exists r, s, []; split; [reflexivity|]; split; [reflexivity|];
  split; [symmetry; apply app_nil_r|]; intros ? [].

(** X1.  [Login] always returns, leaves the client as it is, and calls the
    store only to save the given login with the API key it returns, and
    only after the request was built, sent and answered without error. *)
Theorem Login_stores_after_success s (login password : string) :
  exists r s' cs,
    Client.Login login password s = Client.Ret r s' /\
    Client.self s' = Client.self s /\
    Client.calls s' = (Client.calls s ++ cs)%list /\
    forall c, In c cs -> ClientFrame.touches_store c = true ->
      c = Client.call_StoreCredentials login (string_of_bytes (fst r)) /\
      Client.storage (Client.self s) <> None /\
      exists req res w1 w2,
        Client.LoginRequest (Client.self s) login password = inl req /\
        Client.httpClient_Do (Client.self s) req (Client.world s) = (inl res, w1) /\
        response.DataResponse res w1 = ((fst r, None), w2).
Proof.
  unfold Client.Login. run.
  destruct (Client.LoginRequest (Client.self s) login password) as [req|e] eqn:Hreq;
    [|nothing_called (@nil Byte.byte, Some e) s].
  run.
  destruct (Client.httpClient_Do (Client.self s) req (Client.world s)) as [[res|e] w1] eqn:Hdo.
  - cbn [Client.logged Client.world].
    destruct (response.DataResponse res w1) as [[apiKey [e|]] w2] eqn:Hdata.
    + eexists _, _, _. split; [reflexivity|]. split; [reflexivity|].
      split; [cbn; rewrite <- app_assoc; reflexivity|].
      intros c [<- | [<- | []]]; discriminate.
    + destruct (Client.storage (Client.self s)) as [st|] eqn:Hst.
      * run. cbn [Client.logged Client.world].
        destruct (storage.StoreCredentials st login (string_of_bytes apiKey) w2)
          as [err w3] eqn:Hstore.
        eexists _, _, _. split; [reflexivity|]. split; [reflexivity|].
        split; [cbn; rewrite <- !app_assoc; reflexivity|].
        intros c [<- | [<- | [<- | []]]]; try discriminate.
        intros _. split; [reflexivity|]. split; [discriminate|].
        exists req, res, w1, w2. cbn [fst]. auto.
      * eexists _, _, _. split; [reflexivity|]. split; [reflexivity|].
        split; [cbn; rewrite <- app_assoc; reflexivity|].
        intros c [<- | [<- | []]]; discriminate.
  - eexists _, _, _. split; [reflexivity|]. split; [reflexivity|].
    split; [reflexivity|]. intros c [<- | []]; discriminate.
Qed.

(** X2.  [OidcAuthenticate] always returns and leaves the client as it is; the
    only call it makes to the store is the write of the very bytes it
    returns, and it makes that call exactly when it returns no error and
    the client has a store. *)
Theorem OidcAuthenticate_caches_iff_success s (code nonce code_verifier : string) :
  exists r s' cs,
    Client.OidcAuthenticate code nonce code_verifier s = Client.Ret r s' /\
    Client.self s' = Client.self s /\
    Client.calls s' = (Client.calls s ++ cs)%list /\
    (forall c, In c cs -> ClientFrame.touches_store c = true ->
       c = Client.call_StoreAuthnToken (fst r)) /\
    (In (Client.call_StoreAuthnToken (fst r)) cs <->
       snd r = None /\ Client.storage (Client.self s) <> None).
Proof.
  unfold Client.OidcAuthenticate. run.
  destruct (Client.OidcAuthenticateRequest (Client.self s) code nonce code_verifier)
    as [req|e] eqn:Hreq.
  2:{ exists (@nil Byte.byte, Some e), s, []. split; [reflexivity|].
      split; [reflexivity|]. split; [symmetry; apply app_nil_r|].
      split; [intros ? []|]. split; [intros [] | intros [? _]; discriminate]. }
  run.
  destruct (Client.httpClient_Do (Client.self s) req (Client.world s)) as [[res|e] w1] eqn:Hdo.
  - cbn [Client.logged Client.world].
    destruct (response.DataResponse res w1) as [[resp [e|]] w2] eqn:Hdata.
    + eexists _, _, _. split; [reflexivity|]. split; [reflexivity|].
      split; [cbn; rewrite <- app_assoc; reflexivity|]. cbn [fst snd]. split.
      * intros c [<- | [<- | []]]; discriminate.
      * split; [intros [? | [? | []]]; discriminate | intros [? _]; discriminate].
    + destruct (Client.storage (Client.self s)) as [st|] eqn:Hst.
      * run. cbn [Client.logged Client.world].
        destruct (storage.StoreAuthnToken st resp w2) as [err w3] eqn:Hstore.
        eexists _, _, _. split; [reflexivity|]. split; [reflexivity|].
        split; [cbn; rewrite <- !app_assoc; reflexivity|]. cbn [fst snd]. split.
        -- intros c [<- | [<- | [<- | []]]]; try discriminate. reflexivity.
        -- split; [intros _; split; [reflexivity | discriminate]|].
           intros _. right. right. left. reflexivity.
      * eexists _, _, _. split; [reflexivity|]. split; [reflexivity|].
        split; [cbn; rewrite <- app_assoc; reflexivity|]. cbn [fst snd]. split.
        -- intros c [<- | [<- | []]]; discriminate.
        -- split; [intros [? | [? | []]]; discriminate | intros [_ ?]; congruence].
  - eexists _, _, _. split; [reflexivity|]. split; [reflexivity|].
    split; [reflexivity|]. cbn [fst snd]. split.
    + intros c [<- | []]; discriminate.
    + split; [intros [? | []]; discriminate | intros [? _]; discriminate].
Qed.

(** X3.  [Authenticate] always returns, leaves the client as it is and never
    calls the store; when the request cannot be built it makes no call at
    all and returns that error without bytes. *)
Theorem Authenticate_leaves_store_alone
    (AuthenticateRequest : Client.t World -> authn.LoginPair -> http.Request + error)
    s (loginPair : authn.LoginPair) :
  exists r s' cs,
    ClientAuthenticate.Authenticate AuthenticateRequest loginPair s = Client.Ret r s' /\
    Client.self s' = Client.self s /\
    Client.calls s' = (Client.calls s ++ cs)%list /\
    (forall c, In c cs -> ClientFrame.touches_store c = false) /\
    (forall e, AuthenticateRequest (Client.self s) loginPair = inr e ->
       r = ([], Some e) /\ cs = [] /\ s' = s).
Proof.
  unfold ClientAuthenticate.Authenticate, ClientAuthenticate.authenticate. run.
  destruct (AuthenticateRequest (Client.self s) loginPair) as [req|e] eqn:Hreq.
  - run.
    destruct (Client.httpClient_Do (Client.self s) req (Client.world s))
      as [[res|e] w1] eqn:Hdo.
    + cbn [Client.logged Client.world].
      destruct (response.DataResponse res w1) as [r w2] eqn:Hdata.
      eexists _, _, _. split; [reflexivity|]. split; [reflexivity|].
      split; [cbn; rewrite <- app_assoc; reflexivity|].
      split; [intros c [<- | [<- | []]]; reflexivity | discriminate].
    + eexists _, _, _. split; [reflexivity|]. split; [reflexivity|].
      split; [reflexivity|].
      split; [intros c [<- | []]; reflexivity | discriminate].
  - exists (@nil Byte.byte, Some e), s, []. split; [reflexivity|].
    split; [reflexivity|]. split; [symmetry; apply app_nil_r|].
    split; [intros ? [] | intros e' [= <-]; auto].
Qed.

Lemma InternalAuthenticate_run s :
  Client.InternalAuthenticate s =
    match Client.authenticator (Client.self s) with
    | None =>
        Client.Ret
          ([], Some "unable to authenticate using client without authenticator") s
    | Some a =>
        if String.eqb (Client.AuthnType (Client.self s)) "oidc" then
          match Client.readCachedAccessToken s with
          | Client.Ret (Some token) s0 =>
              if authn.ShouldRefresh token (Client.world s0)
              then Client.Ret
                     ([], Some "No valid OIDC token found. Please login again.") s0
              else Client.Ret (authn.Raw token, None) s0
          | Client.Ret None s0 =>
              Client.Ret ([], Some "No valid OIDC token found. Please login again.") s0
          | Client.Panic => Client.Panic
          end
        else
          let '(r, w) := authn.RefreshToken a (Client.world s) in
          Client.Ret r (Client.logged Client.call_Authenticator_RefreshToken w s)
    end.
Proof.
  unfold Client.InternalAuthenticate, Client.authenticator_RefreshToken. run.
  destruct (Client.authenticator (Client.self s)) as [a|] eqn:Ha; [|reflexivity].
  destruct (String.eqb (Client.AuthnType (Client.self s)) "oidc").
  - destruct (Client.readCachedAccessToken s) as [[token|] s0|]; try reflexivity.
    destruct (authn.ShouldRefresh token (Client.world s0)); reflexivity.
  - cbv beta. rewrite Ha. reflexivity.
Qed.

(** X4.  [InternalAuthenticate] never changes the client: in particular the
    token it obtains from the authenticator is handed to the caller but not
    installed as [authToken].  It panics exactly for an OIDC client that
    has an authenticator but no store. *)
Theorem InternalAuthenticate_keeps_client s :
  (forall r s', Client.InternalAuthenticate s = Client.Ret r s' ->
     Client.self s' = Client.self s) /\
  (forall a, Client.authenticator (Client.self s) = Some a ->
     Client.AuthnType (Client.self s) <> "oidc" ->
     exists s',
       Client.InternalAuthenticate s =
         Client.Ret (fst (authn.RefreshToken a (Client.world s))) s' /\
       Client.authToken (Client.self s') = Client.authToken (Client.self s)) /\
  (Client.InternalAuthenticate s = Client.Panic <->
     Client.authenticator (Client.self s) <> None /\
     Client.AuthnType (Client.self s) = "oidc" /\
     Client.storage (Client.self s) = None).
Proof.
  rewrite InternalAuthenticate_run. split; [|split].
  - intros r s'.
    destruct (Client.authenticator (Client.self s)) as [a|]; [|intros [= _ <-]; reflexivity].
    destruct (String.eqb (Client.AuthnType (Client.self s)) "oidc").
    + destruct (Client.readCachedAccessToken s) as [cached s0|] eqn:Hr; [|discriminate].
      destruct (readCachedAccessToken_state s cached s0 Hr) as [Hself _].
      destruct cached as [token|].
      * destruct (authn.ShouldRefresh token (Client.world s0));
          intros [= _ <-]; exact Hself.
      * intros [= _ <-]; exact Hself.
    + destruct (authn.RefreshToken a (Client.world s)) as [r0 w].
      intros [= _ <-]. reflexivity.
  - intros a Ha Hty. rewrite Ha. apply String.eqb_neq in Hty. rewrite Hty.
    destruct (authn.RefreshToken a (Client.world s)) as [r0 w].
    eexists. split; reflexivity.
  - destruct (Client.authenticator (Client.self s)) as [a|] eqn:Ha.
    + destruct (String.eqb_spec (Client.AuthnType (Client.self s)) "oidc") as [Hty|Hty].
      * destruct (Client.storage (Client.self s)) as [st|] eqn:Hst.
        -- rewrite (readCachedAccessToken_run s st Hst).
           destruct (storage.ReadAuthnToken st (Client.world s)) as [[tokenBytes [e|]] w].
           ++ split; [discriminate | intros (_ & _ & ?); discriminate].
           ++ destruct (authn.NewToken tokenBytes) as [token|e].
              ** destruct (authn.ShouldRefresh _ _);
                   (split; [discriminate | intros (_ & _ & ?); discriminate]).
              ** split; [discriminate | intros (_ & _ & ?); discriminate].
        -- rewrite (readCachedAccessToken_nil_storage s Hst).
           split; [intros _; repeat split; [discriminate | assumption] | reflexivity].
      * destruct (authn.RefreshToken a (Client.world s)) as [r0 w].
        split; [discriminate | intros (_ & ? & _); contradiction].
    + split; [discriminate | intros (? & _); contradiction].
Qed.

Lemma same_collaborators_refl (c : Client.t World) : ClientFrame.same_collaborators c c.
Proof. repeat split. Qed.

Lemma refreshToken_frame s err s' :
  Client.refreshToken s = Client.Ret err s' ->
  ClientFrame.same_collaborators (Client.self s) (Client.self s') /\
  Client.calls s' = (Client.calls s ++ [Client.call_Authenticator_RefreshToken])%list.
Proof.
  destruct (Client.authenticator (Client.self s)) as [a|] eqn:Ha.
  - rewrite (refreshToken_run s a Ha).
    destruct (authn.RefreshToken a (Client.world s)) as [[tokenBytes [e|]] w].
    + intros [= _ <-]. repeat split.
    + destruct (authn.NewToken tokenBytes); intros [= _ <-]; repeat split.
  - rewrite (refreshToken_nil_authenticator s Ha). discriminate.
Qed.

Lemma refresh_if_stale_frame s err s' :
  Client.refresh_if_stale s = Client.Ret err s' ->
  ClientFrame.same_collaborators (Client.self s) (Client.self s') /\
  exists attempted : bool,
    Client.calls s' =
      (Client.calls s ++
       if attempted then [Client.call_Authenticator_RefreshToken] else [])%list /\
    Client.NeedsTokenRefresh s = Client.Ret attempted s /\
    (attempted = false -> err = None /\ s' = s).
Proof.
  unfold Client.refresh_if_stale.
  destruct (Client.NeedsTokenRefresh s) as [[|] s1|] eqn:Hn; [| |discriminate];
    pose proof (NeedsTokenRefresh_state _ _ _ Hn) as ->.
  - intros Hr. destruct (refreshToken_frame s err s' Hr) as [Hsame Hcalls].
    split; [exact Hsame|]. exists true. repeat split; [exact Hcalls | discriminate..].
  - intros [= <- <-]. split; [apply same_collaborators_refl|].
    exists false. rewrite app_nil_r. repeat split.
Qed.

(** X5.  A run of [RefreshToken] changes no field of the client other than
    [authToken], reads the store once if and only if the client is an OIDC
    client, and calls the authenticator once if staleness was reported and
    not at all otherwise; without that call it returns nil. *)
Theorem RefreshToken_frame s err s' :
  Client.RefreshToken s = Client.Ret err s' ->
  ClientFrame.same_collaborators (Client.self s) (Client.self s') /\
  exists attempted : bool,
    Client.calls s' =
      (Client.calls s ++
       (if String.eqb (Client.AuthnType (Client.self s)) "oidc"
        then [Client.call_ReadAuthnToken] else []) ++
       (if attempted then [Client.call_Authenticator_RefreshToken] else []))%list /\
    (attempted = false -> err = None).
Proof.
  destruct (String.eqb_spec (Client.AuthnType (Client.self s)) "oidc") as [Hty|Hty].
  - rewrite (RefreshToken_oidc s Hty).
    destruct (Client.readCachedAccessToken s) as [cached s0|] eqn:Hr; [|discriminate].
    destruct (readCachedAccessToken_state s cached s0 Hr) as [Hself Hcalls].
    intros Hs. apply refresh_if_stale_frame in Hs.
    destruct Hs as [Hsame (attempted & Hc & _ & Hnone)].
    assert (Hh : ClientFrame.same_collaborators (Client.self s)
                   (Client.self (Client.hydrated cached s0)))
      by (destruct cached; cbn; rewrite Hself; repeat split).
    assert (Hhc : Client.calls (Client.hydrated cached s0) = Client.calls s0)
      by (destruct cached; reflexivity).
    split.
    + destruct Hh as (? & ? & ? & ? & ? & ?), Hsame as (? & ? & ? & ? & ? & ?).
      repeat split; congruence.
    + exists attempted. split; [|intros Ha; apply (Hnone Ha)].
      rewrite Hc, Hhc, Hcalls, <- app_assoc. reflexivity.
  - rewrite (RefreshToken_not_oidc s Hty). intros Hs.
    apply refresh_if_stale_frame in Hs.
    destruct Hs as [Hsame (attempted & Hc & _ & Hnone)].
    split; [exact Hsame|]. exists attempted.
    split; [exact Hc | intros Ha; apply (Hnone Ha)].
Qed.

(** X6.  [createAuthRequest] panics only where [RefreshToken] does (after a
    refresh that returned nil a token is always in place, so the read of
    its raw bytes cannot fail), and when the refresh returns an error the
    request is handed back as it was, with that error. *)
Theorem createAuthRequest_panics_iff s (req : http.Request) :
  (Client.createAuthRequest req s = Client.Panic <->
   Client.RefreshToken s = Client.Panic) /\
  (forall e s', Client.RefreshToken s = Client.Ret (Some e) s' ->
     Client.createAuthRequest req s = Client.Ret (Some e, req) s').
Proof.
  rewrite createAuthRequest_run.
  destruct (Client.RefreshToken s) as [[e|] s'|] eqn:Hr.
  - split; [split; discriminate | intros e' s'' [= <- <-]; reflexivity].
  - destruct (RefreshToken_holds_token s s' Hr) as [token Htok]. rewrite Htok.
    split; [split; discriminate | discriminate].
  - split; [split; reflexivity | discriminate].
Qed.

(** X7.  Where a nil collaborator makes a method panic: the read of the cached
    token exactly when the store is nil, a refresh exactly when the
    authenticator is nil, the staleness test exactly when a token is held
    that should not refresh and the authenticator is nil; [PurgeCredentials]
    returns nil without a call when the store is nil. *)
Theorem nil_collaborators s :
  (Client.readCachedAccessToken s = Client.Panic <->
     Client.storage (Client.self s) = None) /\
  (Client.refreshToken s = Client.Panic <->
     Client.authenticator (Client.self s) = None) /\
  (Client.NeedsTokenRefresh s = Client.Panic <->
     exists token, Client.authToken (Client.self s) = Some token /\
                   authn.ShouldRefresh token (Client.world s) = false /\
                   Client.authenticator (Client.self s) = None) /\
  (Client.AuthnType (Client.self s) = "oidc" ->
   Client.storage (Client.self s) = None ->
   Client.RefreshToken s = Client.Panic) /\
  (Client.storage (Client.self s) = None ->
   Client.PurgeCredentials s = Client.Ret None s).
Proof.
  split; [|split; [|split; [|split]]].
  - destruct (Client.storage (Client.self s)) as [st|] eqn:Hst.
    + rewrite (readCachedAccessToken_run s st Hst).
      destruct (storage.ReadAuthnToken st (Client.world s)) as [[tokenBytes [e|]] w];
        [split; discriminate|].
      destruct (authn.NewToken tokenBytes); split; discriminate.
    + rewrite (readCachedAccessToken_nil_storage s Hst). split; reflexivity.
  - destruct (Client.authenticator (Client.self s)) as [a|] eqn:Ha.
    + rewrite (refreshToken_run s a Ha).
      destruct (authn.RefreshToken a (Client.world s)) as [[tokenBytes [e|]] w];
        [split; discriminate|].
      destruct (authn.NewToken tokenBytes); split; discriminate.
    + rewrite (refreshToken_nil_authenticator s Ha). split; reflexivity.
  - rewrite NeedsTokenRefresh_run.
    destruct (Client.authToken (Client.self s)) as [token|].
    + destruct (authn.ShouldRefresh token (Client.world s)) eqn:Hstale.
      * split; [discriminate | intros (t & [= <-] & ? & _); congruence].
      * destruct (Client.authenticator (Client.self s)) as [a|].
        -- split; [discriminate | intros (t & _ & _ & ?); discriminate].
        -- split; [intros _; eauto | reflexivity].
    + split; [discriminate | intros (t & ? & _); discriminate].
  - intros Hty Hst.
    rewrite (RefreshToken_oidc s Hty), (readCachedAccessToken_nil_storage s Hst).
    reflexivity.
  - intros Hst. unfold Client.PurgeCredentials. run. rewrite Hst. reflexivity.
Qed.

End ClientMoreFacts.

Lemma RefreshToken_frame_witness :
  let s' :=
    Client.logged Client.call_Authenticator_RefreshToken
      (Client.world Sim.oidc_stale_cache)
      (Client.installed (Sim.token "0" 0)
         (Client.logged Client.call_ReadAuthnToken
            (Client.world Sim.oidc_stale_cache) Sim.oidc_stale_cache)) in
  ClientFrame.same_collaborators (Client.self Sim.oidc_stale_cache) (Client.self s') /\
  exists attempted : bool,
    Client.calls s' =
      (Client.calls Sim.oidc_stale_cache ++
       (if String.eqb (Client.AuthnType (Client.self Sim.oidc_stale_cache)) "oidc"
        then [Client.call_ReadAuthnToken] else []) ++
       (if attempted then [Client.call_Authenticator_RefreshToken] else []))%list /\
    (attempted = false -> Some "401 Invalid" = None).
Proof.
  apply (RefreshToken_frame Sim.oidc_stale_cache (Some "401 Invalid")).
  reflexivity.
Defined.

(** ** The Authorization header *)

Lemma base64_encode_alphabet (i : N) :
  (i < 64)%N -> base64_char (base64.encode i) = true.
Proof.
  intros Hi.
  assert (Hall : forallb (fun n => base64_char (base64.encode (N.of_nat n))) (seq 0 64) = true)
    by (vm_compute; reflexivity).
  rewrite forallb_forall in Hall.
  rewrite <- (N2Nat.id i). apply Hall. apply in_seq. lia.
Qed.

Lemma base64_sextet_alphabet (val shift : N) :
  base64_char (base64.sextet val shift) = true.
Proof.
  unfold base64.sextet. apply base64_encode_alphabet.
  change 63%N with (N.ones 6). rewrite N.land_ones.
  apply N.mod_lt. discriminate.
Qed.

Lemma base64_EncodeToString_shape (n : nat) (src : bytes) :
  List.length src <= n ->
  forallb base64_char (list_ascii_of_string (base64.EncodeToString src)) = true /\
  String.length (base64.EncodeToString src) = 4 * ((List.length src + 2) / 3).
Proof.
  revert src. induction n as [|n IH]; intros src Hlen.
  - destruct src; [split; reflexivity | cbn in Hlen; lia].
  - destruct src as [|s0 [|s1 [|s2 rest]]].
    + split; reflexivity.
    + cbn [base64.EncodeToString list_ascii_of_string forallb String.length].
      rewrite !base64_sextet_alphabet. split; reflexivity.
    + cbn [base64.EncodeToString list_ascii_of_string forallb String.length].
      rewrite !base64_sextet_alphabet. split; reflexivity.
    + assert (Hrest : List.length rest <= n) by (cbn in Hlen; lia).
      destruct (IH rest Hrest) as [Hchars Hsize].
      cbn [base64.EncodeToString list_ascii_of_string forallb String.length].
      rewrite !base64_sextet_alphabet, Hchars, Hsize. split; [reflexivity|].
      cbn [List.length].
      replace (S (S (S (List.length rest))) + 2) with ((List.length rest + 2) + 1 * 3) by lia.
      rewrite Nat.div_add by lia. lia.
Qed.

(** X8.  Whatever the raw bytes of the token, the Authorization value is the
    text [Token token=], a double quote, the base64 text and a closing
    double quote, where the base64 text has four characters for every
    three bytes begun and consists of letters, digits, plus, slash and the
    equals sign alone: no quote, space or line break can come from the
    token. *)
Theorem authorization_well_formed (raw : bytes) :
  exists body,
    Client.authorization raw = "Token token=" +:+ dquote +:+ body +:+ dquote /\
    String.length body = 4 * ((List.length raw + 2) / 3) /\
    forall c, In c (list_ascii_of_string body) ->
      base64_char c = true /\
      c <> ascii_of_nat 34 /\ c <> " "%char /\
      c <> ascii_of_nat 13 /\ c <> ascii_of_nat 10.
Proof.
  exists (base64.EncodeToString raw).
  destruct (base64_EncodeToString_shape (List.length raw) raw (le_n _)) as [Hchars Hsize].
  split; [reflexivity|]. split; [exact Hsize|].
  intros c Hin. rewrite forallb_forall in Hchars. specialize (Hchars c Hin).
  split; [exact Hchars|].
  repeat split; intros ->; vm_compute in Hchars; discriminate.
Qed.

(** ** The router and the error type at work *)

Example QueryEscape_examples :
  url.QueryEscape "a b/c?d=e&f" = "a+b%2Fc%3Fd%3De%26f" /\
  url.QueryEscape "host/my-app_1.x~" = "host%2Fmy-app_1.x~" /\
  unescape.QueryUnescape "100%" = None.
Proof. repeat split. Qed.

Example SplitN_examples :
  strings_SplitN "a:b:c:d" ":" 3 = ["a"; "b"; "c:d"] /\
  strings_SplitN "abc" ":" 3 = ["abc"] /\
  strings_SplitN "" ":" 3 = [""] /\
  strings_SplitN "a::b" ":" 3 = ["a"; ""; "b"] /\
  strings_SplitN "a:b" ":" 0 = [].
Proof. repeat split. Qed.

Example AuthenticateRequest_alice :
  RouterV5.AuthenticateRequest SimRouter.NewRequest SimRouter.router SimRouter.alice =
    inl {| http.Method := "POST";
           http.URL := "https://conjur.example/authn/cucumber/host%2Falice/authenticate";
           http.Header := {[ "Content-Type" := ["text/plain"] ]};
           http.Body := list_byte_of_string "s3cret" |}.
Proof. vm_compute. reflexivity. Qed.

Example variableURL_short_id :
  RouterV5.variableURL SimRouter.router "variable:db-password" = IndexOutOfRange.
Proof. reflexivity. Qed.

Example NewConjurError_not_found :
  ConjurError.NewConjurError unit SimRouter.Unmarshal_fails (fun body => body)
    SimRouter.notFound
    = ConjurError.Conjur (ConjurError.mk unit 404 "404 Not Found" None) /\
  ConjurError.Error (ConjurError.mk unit 404 "404 Not Found" None) = "404 Not Found. ".
Proof. split; reflexivity. Qed.
